(** * WorldEROI: the world grid, its wind and solar energy model and EROI

    A shallow embedding of [world_grid.py]: the grid builder [world_grid],
    the EROI aggregator [world_grid_eroi] and the rooftop pipeline
    [world_rooftop_pv], followed by the properties of the specification.

    Numbers.  Every numeric column of the data frame is a float64 column.
    A column value is modelled by [fl]: a real number, one of the two
    infinities, or NaN (which is also how pandas stores a missing value).
    The special values follow IEEE 754 as numpy and pandas apply it
    (division by zero gives an infinity or NaN and does not raise; NaN
    compares false with everything).  Finite values are exact reals:
    rounding, overflow and underflow of float64 arithmetic and the sign
    of zero are outside the model; the one range error that makes the
    program raise, the [OverflowError] of [math.gamma], is part of it. *)

From Stdlib Require Import Reals Lra String List.
From stdpp Require Import gmap strings.

Open Scope R_scope.

(* ================================================================== *)
(** * Part I: definitions                                              *)
(* ================================================================== *)

(** ** Column values *)

Inductive fl : Type :=
  | Fin (x : R)
  | PInf
  | NInf
  | NaN.

Coercion Fin : R >-> fl.

Declare Scope fl_scope.
Delimit Scope fl_scope with fl.
Bind Scope fl_scope with fl.

#[global] Instance Rlt_decision (x y : R) : Decision (x < y) := Rlt_dec x y.
#[global] Instance Rle_decision (x y : R) : Decision (x <= y) := Rle_dec x y.
#[global] Instance Req_decision (x y : R) : Decision (x = y) := Req_dec_T x y.

(** A Python boolean used as a number: [True] is 1 and [False] is 0. *)
Definition ind (b : bool) : fl := Fin (if b then 1 else 0).

(** An infinity of sign [pos] multiplied by the finite [x]. *)
Definition inf_times (pos : bool) (x : R) : fl :=
  if decide (0 < x) then (if pos then PInf else NInf)
  else if decide (x < 0) then (if pos then NInf else PInf)
  else NaN.

Definition fl_add (a b : fl) : fl :=
  match a, b with
  | NaN, _ | _, NaN => NaN
  | Fin x, Fin y => Fin (x + y)
  | PInf, NInf | NInf, PInf => NaN
  | PInf, _ | _, PInf => PInf
  | NInf, _ | _, NInf => NInf
  end.

Definition fl_mul (a b : fl) : fl :=
  match a, b with
  | NaN, _ | _, NaN => NaN
  | Fin x, Fin y => Fin (x * y)
  | Fin x, PInf | PInf, Fin x => inf_times true x
  | Fin x, NInf | NInf, Fin x => inf_times false x
  | PInf, PInf | NInf, NInf => PInf
  | PInf, NInf | NInf, PInf => NInf
  end.

(** Float division as pandas performs it: nothing raises. *)
Definition fl_div (a b : fl) : fl :=
  match a, b with
  | NaN, _ | _, NaN => NaN
  | Fin x, Fin y =>
      if decide (y = 0) then
        (if decide (0 < x) then PInf else if decide (x < 0) then NInf else NaN)
      else Fin (x / y)
  | Fin _, PInf | Fin _, NInf => Fin 0
  | PInf, Fin y => if decide (y < 0) then NInf else PInf
  | NInf, Fin y => if decide (y < 0) then PInf else NInf
  | PInf, PInf | PInf, NInf | NInf, PInf | NInf, NInf => NaN
  end.

Definition fl_abs (a : fl) : fl :=
  match a with
  | Fin x => Fin (Rabs x)
  | PInf | NInf => PInf
  | NaN => NaN
  end.

(** [pow(a, y)] for a finite exponent [y] that is not an integer (the
    program only raises to -1.086 and to 5.255): a negative base gives
    NaN, a zero base gives 0 or +inf by the sign of [y]. *)
Definition fl_pow (a : fl) (y : R) : fl :=
  match a with
  | Fin x =>
      if decide (0 < x) then Fin (Rpower x y)
      else if decide (x < 0) then NaN
      else if decide (0 < y) then Fin 0 else PInf
  | PInf | NInf => if decide (0 < y) then PInf else Fin 0
  | NaN => NaN
  end.

(** Comparisons of a column with a column or a scalar; NaN compares false. *)
Definition fl_ltb (a b : fl) : bool :=
  match a, b with
  | NaN, _ | _, NaN => false
  | Fin x, Fin y => bool_decide (x < y)
  | NInf, Fin _ | NInf, PInf | Fin _, PInf => true
  | _, _ => false
  end.

Definition fl_leb (a b : fl) : bool :=
  match a, b with
  | NaN, _ | _, NaN => false
  | Fin x, Fin y => bool_decide (x <= y)
  | NInf, _ | _, PInf => true
  | _, _ => false
  end.

Definition fl_gtb (a b : fl) : bool := fl_ltb b a.
Definition fl_geb (a b : fl) : bool := fl_leb b a.

(** [Series.isnull()] on a float column. *)
Definition isnull (a : fl) : bool :=
  match a with NaN => true | _ => false end.

Infix "+" := fl_add : fl_scope.
Infix "*" := fl_mul : fl_scope.
Infix "/" := fl_div : fl_scope.
Infix "<?" := fl_ltb (at level 70) : fl_scope.
Infix "<=?" := fl_leb (at level 70) : fl_scope.
Infix ">?" := fl_gtb (at level 70) : fl_scope.
Infix ">=?" := fl_geb (at level 70) : fl_scope.

Definition fl_opp (a : fl) : fl :=
  match a with
  | Fin x => Fin (- x)
  | PInf => NInf
  | NInf => PInf
  | NaN => NaN
  end.

Definition fl_sub (a b : fl) : fl := fl_add a (fl_opp b).

Infix "-" := fl_sub : fl_scope.

(** ** The Python library: [math.gamma] and [in] on strings *)

(** The Gamma function on the reals, as [math.gamma] computes it, and
    the arguments at which its value still is a float64: from
    [gamma_tiny] in absolute value, about 5.6e-309, up to [gamma_limit],
    about 171.62. *)
Class py_math := { Gamma : R -> R; gamma_tiny : R; gamma_limit : R }.

Definition is_integer (x : R) : Prop := IZR (Int_part x) = x.

#[global] Instance is_integer_decision (x : R) : Decision (is_integer x) :=
  Req_dec_T (IZR (Int_part x)) x.

(** [math.gamma(x)]: [None] stands for the exception raised, the
    [ValueError] at the poles (zero and the negative integers) and at
    -inf, and the [OverflowError] above [gamma_limit] and, next to the
    pole at zero, below [gamma_tiny] in absolute value; +inf and NaN
    are returned unchanged. *)
Definition math_gamma `{py_math} (a : fl) : option fl :=
  match a with
  | Fin x =>
      if decide (x <= 0 /\ is_integer x) then None
      else if decide (gamma_limit < x \/ Rabs x < gamma_tiny) then None
      else Some (Fin (Gamma x))
  | PInf => Some PInf
  | NInf => None
  | NaN => Some NaN
  end.

Arguments math_gamma : simpl never.

(** [pat in s] *)
Fixpoint str_in (pat s : string) : bool :=
  String.prefix pat s ||
  match s with
  | EmptyString => false
  | String _ s' => str_in pat s'
  end.

(** [str(x)] of a [Country] entry; a missing entry is the float NaN. *)
Definition py_str (x : option string) : string :=
  match x with
  | Some s => s
  | None => "nan"
  end.

(** ** Input tables *)

(** One row of [wind_solar_0_75], named by [Col_names]. *)
Record raw_cell : Type := {
  Country : option string;
  Lat : fl;
  Lon : fl;
  Elev : fl;
  DistCoast : fl;
  WindMean71 : fl;
  WindMean125 : fl;
  WindStd71 : fl;
  WindStd125 : fl;
  GHI : fl;
  v_r_opti : fl;
  n_opti : fl;
  land_cover : list fl
}.

Definition data_files : string := "data/".
Definition sf_files : string := "data/suitability_factors/".

(** ** The collaborators [model_params] and [model_methods] *)

(** The named constants of [model_params] that [world_grid.py] reads. *)
Class model_params := {
  maxWaterDepth_wind : R;
  fixedOnshore : R;
  onshoreOMKm : R;
  onshoreInstallationKm : R;
  fixedOffshoreFixed : R;
  fixedOffshoreFloating : R;
  offshoreFixedFoundations : R;
  offshoreOMKm : R;
  offshoreInstallationKm : R;
  offshoreCableKm : R;
  availFactor_onshore : R;
  availFactor_offshore : R;
  remove_operational_e : bool;
  oe_wind_onshore : R;
  oe_wind_offshore : R;
  wind_life_time : R;
  pv_gcr : R;
  oe_pv : R;
  wc_pv_panel : R;
  pv_life_time_inputs : R;
  pv_life_time : R;
  sf_residential : R;
  sf_commercial : R
}.

(** The functions of [model_methods] that [world_grid.py] calls, each
    taken per row.  [compute_sf file] is the suitability column computed
    from the table [file]; [solar_coeff] is the constant of
    proportionality of the solar output model. *)
Class model_methods := {
  area : fl -> fl;
  compute_sf : string -> raw_cell -> fl;
  E_out_wind : fl -> fl -> fl -> fl -> fl -> fl -> R -> fl;
  E_in_wind : fl -> fl -> fl -> fl -> fl -> fl;
  solar_coeff : R
}.

(** Modelled from the spec: [model_methods.E_out_solar] is not part of
    the sources.  The specification gives its contract
    [energy_output(irradiance, effective_area)] as a direct product-style
    model, the annual output proportional to irradiance times effective
    collector area. *)
Definition E_out_solar `{model_methods} (irradiance effective_area : fl) : fl :=
  (solar_coeff * irradiance * effective_area)%fl.

(** ** [world_grid]: the grid builder *)

(** The rows of the built grid: the input columns of a kept row and the
    columns [world_grid] adds to it. *)
Record grid_cell : Type := {
  src : raw_cell;
  Area : fl;
  wind_sf_onshore : fl;
  wind_sf_offshore : fl;
  pv_sf : fl;
  csp_sf : fl;
  slope_pv_sf : fl;
  slope_csp_sf : fl;
  wind_area_onshore : fl;
  wind_area_offshore : fl;
  pv_area : fl;
  csp_area : fl;
  WindMean100 : fl;
  WindStd100 : fl;
  k : fl;
  c : fl;
  z : fl;
  P : fl;
  air_density : fl
}.

Section GridBuilder.
Context `{model_params} `{model_methods} `{py_math}.

(** Discard cells where no RES can presumably be installed: the five
    successive [df.loc] selections. *)
Definition country_kept (r : raw_cell) : bool :=
  match Country r with
  | None => false
  | Some s =>
      negb (String.eqb s "Antarctica") && negb (String.eqb s "Greenland")
      && negb (String.eqb s "French Southern & Antarctic Lands")
  end.

Definition discard_cells (df : list raw_cell) : list raw_cell :=
  let df := List.filter country_kept df in
  let df := List.filter (fun r => negb (str_in "Island" (py_str (Country r)))) df in
  let df := List.filter (fun r => negb (str_in "Is." (py_str (Country r)))) df in
  let df := List.filter (fun r => (Elev r >=? maxWaterDepth_wind)%fl) df in
  List.filter (fun r => negb (isnull (v_r_opti r))) df.

(** The offshore suitability column: reset below the maximal water
    depth, then the three [*=] updates by distance to the coast, in the
    order of the source. *)
Definition zero_below_depth (elev sf : fl) : fl :=
  if (elev <? maxWaterDepth_wind)%fl then Fin 0 else sf.

Definition coast_derating (dist sf : fl) : fl :=
  let sf := if (dist >=? 37.04)%fl then (sf * 0.67)%fl else sf in
  let sf := if (dist <? 37.04)%fl && (dist >=? 9.26)%fl then (sf * 0.33)%fl else sf in
  if (dist <? 9.26)%fl then (sf * 0.1)%fl else sf.

(** Weibull parameters of the wind speed distribution at 100 m. *)
Definition weibull_k (std100 mean100 : fl) : fl :=
  fl_pow (std100 / mean100) (-1.086).

Definition weibull_c (mean100 k : fl) : option fl :=
  g ← math_gamma (1 + 1 / k)%fl; Some (mean100 / g)%fl.

(** Hub height, pressure and air density at hub height. *)
Definition hub_height (elev : fl) : fl := (elev * ind (elev >? 0) + 100)%fl.

Definition pressure (z : fl) : fl :=
  (101325 * fl_pow (1 - 0.0065 * z / 288.15) 5.255)%fl.

Definition density_of_pressure (P : fl) : fl := (P / (287.05 * 288.15)%R)%fl.

(** All the columns of one kept row; [None] when [math.gamma] raises. *)
Definition build_cell (r : raw_cell) : option grid_cell :=
  let Area := area (Lat r) in
  let wind_sf_onshore := compute_sf (sf_files +:+ "wind_onshore") r in
  let wind_sf_offshore := compute_sf (sf_files +:+ "wind_offshore") r in
  let pv_sf := compute_sf (sf_files +:+ "pv") r in
  let csp_sf := compute_sf (sf_files +:+ "csp") r in
  let wind_sf_offshore := zero_below_depth (Elev r) wind_sf_offshore in
  let wind_sf_offshore := coast_derating (DistCoast r) wind_sf_offshore in
  let slope_pv_sf := compute_sf (sf_files +:+ "slope_pv") r in
  let pv_sf := (pv_sf * slope_pv_sf)%fl in
  let slope_csp_sf := compute_sf (sf_files +:+ "slope_csp") r in
  let csp_sf := (csp_sf * slope_csp_sf)%fl in
  let WindMean100 := ((WindMean71 r + WindMean125 r) / 2)%fl in
  let WindStd100 := ((WindStd71 r + WindStd125 r) / 2)%fl in
  let k := weibull_k WindStd100 WindMean100 in
  c ← weibull_c WindMean100 k;
  let z := hub_height (Elev r) in
  let P := pressure z in
  Some {|
    src := r;
    Area := Area;
    wind_sf_onshore := wind_sf_onshore;
    wind_sf_offshore := wind_sf_offshore;
    pv_sf := pv_sf;
    csp_sf := csp_sf;
    slope_pv_sf := slope_pv_sf;
    slope_csp_sf := slope_csp_sf;
    wind_area_onshore := (Area * wind_sf_onshore)%fl;
    wind_area_offshore := (Area * wind_sf_offshore)%fl;
    pv_area := (Area * pv_sf)%fl;
    csp_area := (Area * csp_sf)%fl;
    WindMean100 := WindMean100;
    WindStd100 := WindStd100;
    k := k;
    c := c;
    z := z;
    P := P;
    air_density := density_of_pressure P
  |}.

(** [world_grid()], on the table read from [wind_solar_0_75], which has
    at least one row ([pd.read_table] raises on a file without data);
    [None] when [math.gamma] raises on a kept row. *)
Definition world_grid (df : list raw_cell) : option (list grid_cell) :=
  mapM build_cell (discard_cells df).

End GridBuilder.

(** ** [world_grid_eroi]: energy inputs, outputs and EROI per cell *)

Record eroi_cell : Type := {
  grid : grid_cell;
  inputs_gw_onshore : fl;
  inputs_gw_offshore : fl;
  wind_onshore_e : fl;
  wind_offshore_e : fl;
  wind_e : fl;
  wind_onshore_e_in : fl;
  wind_offshore_e_in : fl;
  wind_e_in : fl;
  wind_onshore_eroi : fl;
  wind_offshore_eroi : fl;
  wind_eroi : fl;
  pv_e : fl;
  pv_e_in : fl;
  pv_eroi : fl
}.

Section EroiAggregator.
Context `{model_params} `{model_methods} `{py_math}.

(** Energy inputs per GW installed. *)
Definition onshore_inputs_gw (dist : fl) : fl :=
  (fixedOnshore + fl_abs dist * (onshoreOMKm + onshoreInstallationKm)%R)%fl.

Definition scaling_factor_fixed_foundations (elev : fl) : fl :=
  (2.19 * ind ((elev >? -40) && (elev <=? -35))
   + 1.95 * ind ((elev >? -35) && (elev <=? -30))
   + 1.57 * ind ((elev >? -30) && (elev <=? -25))
   + 1.34 * ind ((elev >? -25) && (elev <=? -20))
   + 1.08 * ind ((elev >? -20) && (elev <=? -15))
   + 1 * ind (elev >? -15))%fl.

(** The first assignment to [inputs_gw_offshore]. *)
Definition offshore_base (elev : fl) : fl :=
  (ind (elev <=? -40) * fixedOffshoreFixed
   + ind (elev >? -40) * fixedOffshoreFloating)%fl.

Definition offshore_inputs_gw (elev dist : fl) : fl :=
  let inputs := offshore_base elev in
  let inputs :=
    (inputs + scaling_factor_fixed_foundations elev * offshoreFixedFoundations)%fl in
  (inputs + fl_abs dist
            * (offshoreOMKm + offshoreInstallationKm + offshoreCableKm)%R)%fl.

(** [x *= (1 - oe)] under [if model_params.remove_operational_e]. *)
Definition remove_operational (oe : R) (e : fl) : fl :=
  if remove_operational_e then (e * (1 - oe)%R)%fl else e.

Definition eroi_of_cell (g : grid_cell) : eroi_cell :=
  let r := src g in
  let inputs_gw_onshore := onshore_inputs_gw (DistCoast r) in
  let inputs_gw_offshore := offshore_inputs_gw (Elev r) (DistCoast r) in
  let wind_onshore_e :=
    (E_out_wind (v_r_opti r) (n_opti r) (c g) (k g) (air_density g)
       (wind_area_onshore g) availFactor_onshore * 1e-18)%fl in
  let wind_offshore_e :=
    (E_out_wind (v_r_opti r) (n_opti r) (c g) (k g) (air_density g)
       (wind_area_offshore g) availFactor_offshore * 1e-18)%fl in
  let wind_onshore_e := remove_operational oe_wind_onshore wind_onshore_e in
  let wind_offshore_e := remove_operational oe_wind_offshore wind_offshore_e in
  let wind_e := (wind_onshore_e + wind_offshore_e)%fl in
  let wind_onshore_e_in :=
    (E_in_wind (v_r_opti r) (n_opti r) (air_density g) (wind_area_onshore g)
       inputs_gw_onshore * 1e-18 / wind_life_time)%fl in
  let wind_offshore_e_in :=
    (E_in_wind (v_r_opti r) (n_opti r) (air_density g) (wind_area_offshore g)
       inputs_gw_offshore * 1e-18 / wind_life_time)%fl in
  let wind_e_in := (wind_onshore_e_in + wind_offshore_e_in)%fl in
  let pv_e := (E_out_solar (GHI r) (pv_area g * pv_gcr) * 1e-18)%fl in
  let pv_e := remove_operational oe_pv pv_e in
  let gw_installed := (wc_pv_panel * pv_area g * pv_gcr / 1e9)%fl in
  let pv_e_in :=
    ((pv_life_time_inputs / pv_life_time)%R * gw_installed * 1e-18)%fl in
  {|
    grid := g;
    inputs_gw_onshore := inputs_gw_onshore;
    inputs_gw_offshore := inputs_gw_offshore;
    wind_onshore_e := wind_onshore_e;
    wind_offshore_e := wind_offshore_e;
    wind_e := wind_e;
    wind_onshore_e_in := wind_onshore_e_in;
    wind_offshore_e_in := wind_offshore_e_in;
    wind_e_in := wind_e_in;
    wind_onshore_eroi := (wind_onshore_e / wind_onshore_e_in)%fl;
    wind_offshore_eroi := (wind_offshore_e / wind_offshore_e_in)%fl;
    wind_eroi := (wind_e / wind_e_in)%fl;
    pv_e := pv_e;
    pv_e_in := pv_e_in;
    pv_eroi := (pv_e / pv_e_in)%fl
  |}.

Definition world_grid_eroi (df : list raw_cell) : option (list eroi_cell) :=
  df ← world_grid df; Some (List.map eroi_of_cell df).

End EroiAggregator.

(** ** [world_rooftop_pv]: rooftop PV per country *)

(** [Series.mean()]: the missing values are skipped. *)
Definition series_mean (xs : list fl) : fl :=
  let xs := List.filter (fun x => negb (isnull x)) xs in
  (fold_left fl_add xs (Fin 0) / INR (length xs))%fl.

(** [df.groupby(['Country']).mean()['GHI']]: rows without a country
    belong to no group. *)
Definition groupby_Country_GHI (df : list grid_cell) : gmap string (list fl) :=
  fold_left
    (fun groups g =>
       match Country (src g) with
       | Some s => <[s := default [] (groups !! s) ++ [GHI (src g)]]> groups
       | None => groups
       end)
    df ∅.

Definition mean_ghi_of (df : list grid_cell) : gmap string fl :=
  series_mean <$> groupby_Country_GHI df.

Module Rooftop.

(** One row of [rooftop_area], named by [Col_names_solarRooftop]; the
    table is indexed by [Country]. *)
Record area_row : Type := {
  Area_PV_Residential : fl;
  Area_PV_Commercial : fl
}.

(** A row after the join with the mean GHI per country. *)
Record ghi_row : Type := {
  areas : area_row;
  GHI : fl
}.

Record row : Type := {
  joined : ghi_row;
  residential_e : fl;
  commercial_e : fl;
  residential_e_in : fl;
  commercial_e_in : fl;
  pv_e : fl;
  pv_e_in : fl;
  pv_eroi : fl
}.

(** [pd.concat([df, mean_ghi.reindex(df.index)], axis=1)]: a country
    without a group in the grid gets a missing GHI. *)
Definition join_ghi (df : gmap string area_row) (mean_ghi : gmap string fl)
  : gmap string ghi_row :=
  map_imap
    (fun country a =>
       Some {| areas := a; GHI := default NaN (mean_ghi !! country) |})
    df.

(** [df.loc[label, 'GHI']]: [None] stands for the [KeyError] of a
    label that is not in the index. *)
Definition loc_get (df : gmap string ghi_row) (label : string) : option fl :=
  GHI <$> df !! label.

(** [df.loc[label, 'GHI'] = v]: a label that is not in the index is
    added, its other columns missing. *)
Definition loc_set (df : gmap string ghi_row) (label : string) (v : fl)
  : gmap string ghi_row :=
  let a :=
    match df !! label with
    | Some r => areas r
    | None => {| Area_PV_Residential := NaN; Area_PV_Commercial := NaN |}
    end in
  <[label := {| areas := a; GHI := v |}]> df.

(** [df.loc[labels, 'GHI'] = v] for a list of labels: a label that is
    not in the index is a [KeyError]. *)
Definition loc_set_list (df : gmap string ghi_row) (labels : list string)
    (v : fl) : option (gmap string ghi_row) :=
  if forallb (fun l => bool_decide (is_Some (df !! l))) labels
  then Some (fold_left (fun df l => loc_set df l v) labels df)
  else None.

Definition ghi_overrides (df : gmap string ghi_row)
  : option (gmap string ghi_row) :=
  v ← loc_get df "Malaysia"; let df := loc_set df "Singapore" v in
  v ← loc_get df "Qatar"; let df := loc_set df "Bahrain" v in
  v ← loc_get df "China"; let df := loc_set df "Chinese Taipei" v in
  v ← loc_get df "China"; let df := loc_set df "Hong Kong, China" v in
  v ← loc_get df "Montenegro"; let df := loc_set df "Kosovo" v in
  loc_set_list df ["Netherlands Antilles"; "Gibraltar"] 0.

Section Pipeline.
Context `{model_params} `{model_methods} `{py_math}.

Definition pv_of_row (r : ghi_row) : row :=
  let res := Area_PV_Residential (areas r) in
  let com := Area_PV_Commercial (areas r) in
  let residential_e :=
    (E_out_solar (GHI r) (res * 1e6 * sf_residential) * 1e-18)%fl in
  let commercial_e :=
    (E_out_solar (GHI r) (com * 1e6 * sf_commercial) * 1e-18)%fl in
  let residential_e := remove_operational oe_pv residential_e in
  let commercial_e := remove_operational oe_pv commercial_e in
  let gw_installed_res := (wc_pv_panel * res * 1e6 * sf_residential / 1e9)%fl in
  let residential_e_in :=
    ((pv_life_time_inputs / pv_life_time)%R * gw_installed_res * 1e-18)%fl in
  let gw_installed_com := (wc_pv_panel * com * 1e6 * sf_commercial / 1e9)%fl in
  let commercial_e_in :=
    ((pv_life_time_inputs / pv_life_time)%R * gw_installed_com * 1e-18)%fl in
  let pv_e := (residential_e + commercial_e)%fl in
  let pv_e_in := (residential_e_in + commercial_e_in)%fl in
  {|
    joined := r;
    residential_e := residential_e;
    commercial_e := commercial_e;
    residential_e_in := residential_e_in;
    commercial_e_in := commercial_e_in;
    pv_e := pv_e;
    pv_e_in := pv_e_in;
    pv_eroi := (pv_e / pv_e_in)%fl
  |}.

(** [world_rooftop_pv()], on the tables read from [rooftop_area] and
    [wind_solar_0_75]. *)
Definition world_rooftop_pv (rooftop_area : gmap string area_row)
    (wind_solar : list raw_cell) : option (gmap string row) :=
  g ← world_grid wind_solar;
  df ← ghi_overrides (join_ghi rooftop_area (mean_ghi_of g));
  Some (fmap (M := gmap string) pv_of_row df).

End Pipeline.

End Rooftop.

(** ** Reference functions of the specification *)

(** The depth bands of the fixed-foundation scaling factor, as the
    specification lists them; outside the fixed-foundation regime no band
    applies. *)
Definition foundation_band (elev : R) : R :=
  if decide (-15 < elev) then 1.00
  else if decide (-20 < elev /\ elev <= -15) then 1.08
  else if decide (-25 < elev /\ elev <= -20) then 1.34
  else if decide (-30 < elev /\ elev <= -25) then 1.57
  else if decide (-35 < elev /\ elev <= -30) then 1.95
  else if decide (-40 < elev /\ elev <= -35) then 2.19
  else 0.

(** The six band conditions of [scaling_factor_fixed_foundations], in the
    order of the source. *)
Definition foundation_conditions (elev : fl) : list bool :=
  [ ((elev >? -40) && (elev <=? -35))%fl;
    ((elev >? -35) && (elev <=? -30))%fl;
    ((elev >? -30) && (elev <=? -25))%fl;
    ((elev >? -25) && (elev <=? -20))%fl;
    ((elev >? -20) && (elev <=? -15))%fl;
    (elev >? -15)%fl ].

(** The distance-to-coast bands of the offshore derating. *)
Definition coast_factor (dist : R) : R :=
  if decide (37.04 <= dist) then 0.67
  else if decide (9.26 <= dist) then 0.33
  else 0.1.

(** The three conditions of the [*=] updates of [coast_derating], in the
    order of the source. *)
Definition coast_conditions (dist : fl) : list bool :=
  [ (dist >=? 37.04)%fl;
    ((dist <? 37.04) && (dist >=? 9.26))%fl;
    (dist <? 9.26)%fl ].

(** [max(a, b)] of Python on two floats. *)
Definition fl_max (a b : fl) : fl := if (b >? a)%fl then b else a.

(** The barometric air density at height [z], on the reals. *)
Definition barometric_density (z : R) : R :=
  101325 * Rpower (1 - 0.0065 * z / 288.15) 5.255 / (287.05 * 288.15).

(** [pat] occurs in [s]. *)
Definition occurs_in (pat s : string) : Prop :=
  exists pre post : string, s = (pre +:+ pat +:+ post)%string.

(** The exclusion policy of the specification for one record. *)
Definition retained `{model_params} (r : raw_cell) : Prop :=
  (exists s, Country r = Some s
             /\ s <> "Antarctica"%string /\ s <> "Greenland"%string
             /\ s <> "French Southern & Antarctic Lands"%string
             /\ ~ occurs_in "Island" s /\ ~ occurs_in "Is." s)
  /\ (Elev r >=? maxWaterDepth_wind)%fl = true
  /\ v_r_opti r <> NaN.

(** A finite fraction between 0 and 1, and a finite value between 0 and
    a finite bound. *)
Definition unit_fraction (x : fl) : Prop :=
  exists s : R, x = Fin s /\ 0 <= s <= 1.

Definition within (x bound : fl) : Prop :=
  exists v b : R, x = Fin v /\ bound = Fin b /\ 0 <= v <= b.

(** The output-to-input ratio of one square metre of rooftop panel. *)
Definition rooftop_unit_eroi `{model_params} `{model_methods} (ghi : R) : R :=
  (solar_coeff * ghi * 1e-18 * (if remove_operational_e then 1 - oe_pv else 1))
  / ((pv_life_time_inputs / pv_life_time) * (wc_pv_panel / 1e9) * 1e-18).

(** ** A sample configuration and sample tables *)

(** The fixed inputs are the values quoted in the comments of
    [world_grid_eroi] (in GJ per GW); the other constants are
    illustrative. *)
Definition sample_params : model_params := {|
  maxWaterDepth_wind := -1000;
  fixedOnshore := 13744075;
  onshoreOMKm := 21.3;
  onshoreInstallationKm := 605.74;
  fixedOffshoreFixed := 18185974;
  fixedOffshoreFloating := 26670974;
  offshoreFixedFoundations := 16173 + 361962 + 10326 + 3477293;
  offshoreOMKm := 6615;
  offshoreInstallationKm := 16904;
  offshoreCableKm := 4681;
  availFactor_onshore := 0.97;
  availFactor_offshore := 0.95;
  remove_operational_e := true;
  oe_wind_onshore := 0.035;
  oe_wind_offshore := 0.007;
  wind_life_time := 25;
  pv_gcr := 0.2;
  oe_pv := 0.0097;
  wc_pv_panel := 240;
  pv_life_time_inputs := 16e15;
  pv_life_time := 25;
  sf_residential := 0.25;
  sf_commercial := 0.65
|}.

(** Stand-ins for the functions of [model_methods]: a cell area that
    scales with the cosine of the latitude, the first land-cover
    fraction as suitability, and wind energies proportional to the
    suitable area. *)
Definition sample_methods : model_methods := {|
  area := fun lat =>
    match lat with
    | Fin x => Fin (6.9e9 * cos (x * PI / 180))
    | _ => NaN
    end;
  compute_sf := fun _ r => hd NaN (land_cover r);
  E_out_wind := fun v_r n _ _ _ area avail => (v_r * n * area * avail)%fl;
  E_in_wind := fun _ n _ area inputs => (n * area * inputs)%fl;
  solar_coeff := 4.7e6
|}.

(** Stirling's formula as a stand-in for the Gamma function. *)
Definition sample_math : py_math := {|
  Gamma := fun x => sqrt (2 * PI / x) * Rpower (x / exp 1) x;
  gamma_tiny := 5.6e-309;
  gamma_limit := 171.62
|}.

Definition sample_cell : raw_cell := {|
  Country := Some "France"%string;
  Lat := 45;
  Lon := -2;
  Elev := -18;
  DistCoast := 40;
  WindMean71 := 7;
  WindMean125 := 9;
  WindStd71 := 3;
  WindStd125 := 4;
  GHI := 150;
  v_r_opti := 11;
  n_opti := 1e-6;
  land_cover := [Fin 0.5]
|}.

(** A cell with a zero mean wind speed and a positive deviation. *)
Definition calm_cell : raw_cell := {|
  Country := Some "France"%string;
  Lat := 45;
  Lon := -2;
  Elev := -18;
  DistCoast := 40;
  WindMean71 := 0;
  WindMean125 := 0;
  WindStd71 := 1;
  WindStd125 := 1;
  GHI := 150;
  v_r_opti := 11;
  n_opti := 1e-6;
  land_cover := [Fin 0.5]
|}.

(** A cell of Malaysia with the given GHI. *)
Definition malaysia_cell (ghi : R) : raw_cell := {|
  Country := Some "Malaysia"%string;
  Lat := 4;
  Lon := 102;
  Elev := 60;
  DistCoast := -30;
  WindMean71 := 3;
  WindMean125 := 4;
  WindStd71 := 1.5;
  WindStd125 := 2;
  GHI := ghi;
  v_r_opti := 9;
  n_opti := 1e-6;
  land_cover := [Fin 0.2]
|}.

Definition sample_wind_solar : list raw_cell :=
  [malaysia_cell 180; sample_cell; malaysia_cell 220].

Definition sample_rooftop : gmap string Rooftop.area_row :=
  list_to_map
    [ ("Malaysia"%string, Rooftop.Build_area_row 120 80);
      ("Singapore"%string, Rooftop.Build_area_row 10 15);
      ("Qatar"%string, Rooftop.Build_area_row 8 9);
      ("China"%string, Rooftop.Build_area_row 4000 3000);
      ("Montenegro"%string, Rooftop.Build_area_row 3 2);
      ("France"%string, Rooftop.Build_area_row 300 200);
      ("Netherlands Antilles"%string, Rooftop.Build_area_row 1 1);
      ("Gibraltar"%string, Rooftop.Build_area_row 0.2 0.3) ].
(** ** Further reference definitions *)

(** A column value that is a number. *)
Definition finite (x : fl) : Prop := exists v : R, x = Fin v.

(** The configuration [mp] with the flag [remove_operational_e] set to
    [flag]. *)
Definition with_remove_operational (flag : bool) (mp : model_params)
  : model_params := {|
  maxWaterDepth_wind := @maxWaterDepth_wind mp;
  fixedOnshore := @fixedOnshore mp;
  onshoreOMKm := @onshoreOMKm mp;
  onshoreInstallationKm := @onshoreInstallationKm mp;
  fixedOffshoreFixed := @fixedOffshoreFixed mp;
  fixedOffshoreFloating := @fixedOffshoreFloating mp;
  offshoreFixedFoundations := @offshoreFixedFoundations mp;
  offshoreOMKm := @offshoreOMKm mp;
  offshoreInstallationKm := @offshoreInstallationKm mp;
  offshoreCableKm := @offshoreCableKm mp;
  availFactor_onshore := @availFactor_onshore mp;
  availFactor_offshore := @availFactor_offshore mp;
  remove_operational_e := flag;
  oe_wind_onshore := @oe_wind_onshore mp;
  oe_wind_offshore := @oe_wind_offshore mp;
  wind_life_time := @wind_life_time mp;
  pv_gcr := @pv_gcr mp;
  oe_pv := @oe_pv mp;
  wc_pv_panel := @wc_pv_panel mp;
  pv_life_time_inputs := @pv_life_time_inputs mp;
  pv_life_time := @pv_life_time mp;
  sf_residential := @sf_residential mp;
  sf_commercial := @sf_commercial mp
|}.

(** The rows that [ghi_overrides] assigns one label at a time, and the
    rows it reads. *)
Definition override_targets : list string :=
  ["Singapore"; "Bahrain"; "Chinese Taipei"; "Hong Kong, China"; "Kosovo"]%string.

Definition override_sources : list string :=
  ["Malaysia"; "Qatar"; "China"; "Montenegro"]%string.

(** A country name that the selections of [discard_cells] drop. *)
Definition dropped_country (s : string) : Prop :=
  s = "Antarctica"%string \/ s = "Greenland"%string
  \/ s = "French Southern & Antarctic Lands"%string
  \/ occurs_in "Island" s \/ occurs_in "Is." s.

(** The GHI values of the cells of the country [s], in the order of the
    grid. *)
Definition ghi_of_country (s : string) (df : list grid_cell) : list fl :=
  List.map (fun x => GHI (src x))
    (List.filter (fun x => bool_decide (Country (src x) = Some s)) df).

(** The GHI column and the area columns of a row of the rooftop result. *)
Definition ghi_of (t : gmap string Rooftop.row) (l : string) : option fl :=
  (fun o => Rooftop.GHI (Rooftop.joined o)) <$> t !! l.

Definition areas_of (t : gmap string Rooftop.row) (l : string)
  : option Rooftop.area_row :=
  (fun o => Rooftop.areas (Rooftop.joined o)) <$> t !! l.

(** A cell whose land cover leaves no suitable area. *)
Definition barren_cell : raw_cell := {|
  Country := Some "France"%string;
  Lat := 45;
  Lon := 3;
  Elev := 1200;
  DistCoast := -250;
  WindMean71 := 5;
  WindMean125 := 6;
  WindStd71 := 0;
  WindStd125 := 0;
  GHI := 140;
  v_r_opti := 10;
  n_opti := 1e-6;
  land_cover := [Fin 0]
|}.

(** A cell under 300 m of water. *)
Definition deep_cell : raw_cell := {|
  Country := Some "France"%string;
  Lat := 46;
  Lon := -5;
  Elev := -300;
  DistCoast := 120;
  WindMean71 := 8;
  WindMean125 := 10;
  WindStd71 := 4;
  WindStd125 := 5;
  GHI := 145;
  v_r_opti := 12;
  n_opti := 1e-6;
  land_cover := [Fin 0.5]
|}.

(** The sample rooftop table with a row for Greenland. *)
Definition rooftop_with_greenland : gmap string Rooftop.area_row :=
  <["Greenland"%string := Rooftop.Build_area_row 0.4 0.1]> sample_rooftop.

(** The sample cell without a distance to the coast. *)
Definition uncharted_cell : raw_cell := {|
  Country := Some "France"%string;
  Lat := 45;
  Lon := -2;
  Elev := -18;
  DistCoast := NaN;
  WindMean71 := 7;
  WindMean125 := 9;
  WindStd71 := 3;
  WindStd125 := 4;
  GHI := 150;
  v_r_opti := 11;
  n_opti := 1e-6;
  land_cover := [Fin 0.5]
|}.


(** A cell of a country that the selections drop. *)
Definition dropped_cell (country : string) : raw_cell := {|
  Country := Some country;
  Lat := -75;
  Lon := 0;
  Elev := 2500;
  DistCoast := -400;
  WindMean71 := 6;
  WindMean125 := 7;
  WindStd71 := 3;
  WindStd125 := 3;
  GHI := 110;
  v_r_opti := 10;
  n_opti := 1e-6;
  land_cover := [Fin 0]
|}.

(** An input table of which the selections keep no row. *)
Definition dropped_wind_solar : list raw_cell :=
  [dropped_cell "Antarctica"; dropped_cell "Baker Island";
   dropped_cell "Greenland"; dropped_cell "Solomon Is."].

(** The cells used as examples for which [math.gamma] returns. *)
Definition sample_cells : list raw_cell :=
  [sample_cell; calm_cell; malaysia_cell 180; malaysia_cell 220; deep_cell;
   barren_cell; uncharted_cell].

(** A rooftop table without a row for Malaysia. *)
Definition rooftop_without_malaysia : gmap string Rooftop.area_row :=
  delete "Malaysia"%string sample_rooftop.


(* ================================================================== *)
(** * Part II: properties                                              *)
(* ================================================================== *)

(** ** Column values *)

Lemma fl_div_fin (x y : R) : y <> 0 -> (Fin x / Fin y)%fl = Fin (x / y).
Proof. intros Hy. unfold fl_div. destruct (decide (y = 0)); [lra | reflexivity]. Qed.

Lemma fl_gtb_fin (x y : R) : (Fin x >? Fin y)%fl = bool_decide (y < x).
Proof. reflexivity. Qed.

Lemma fl_leb_fin (x y : R) : (Fin x <=? Fin y)%fl = bool_decide (x <= y).
Proof. reflexivity. Qed.

Lemma fl_ltb_fin (x y : R) : (Fin x <? Fin y)%fl = bool_decide (x < y).
Proof. reflexivity. Qed.

Lemma fl_geb_fin (x y : R) : (Fin x >=? Fin y)%fl = bool_decide (y <= x).
Proof. reflexivity. Qed.

(** Decide every comparison of reals in the goal and discard the cases
    that contradict each other. *)
Ltac real_cases :=
  repeat ((case_bool_decide || case_decide); try (exfalso; lra)).

Ltac fin_eq :=
  cbn; real_cases; cbn;
  try first [ reflexivity | lra | f_equal; lra | f_equal; ring ].

(** ** The offshore inputs per GW *)

Section OffshoreInputs.
Context `{model_params}.

(** C1: the first assignment to [inputs_gw_offshore] takes the
    floating-foundation constant for every cell with [Elev > -40] and
    the fixed-foundation constant for every cell with [Elev <= -40]:
    the two constants are selected the other way round from what the
    comment above the assignment and the specification say.  At
    [Elev = -10] the base is [fixedOffshoreFloating], at [Elev = -41]
    it is [fixedOffshoreFixed]. *)
Theorem offshore_base_swapped :
  (forall elev : R,
     offshore_base (Fin elev)
     = Fin (if decide (-40 < elev) then fixedOffshoreFloating
            else fixedOffshoreFixed))
  /\ offshore_base (Fin (-10)) = Fin fixedOffshoreFloating
  /\ offshore_base (Fin (-41)) = Fin fixedOffshoreFixed
  /\ (forall dist : R,
        offshore_inputs_gw (Fin (-10)) (Fin dist)
        = Fin (fixedOffshoreFloating + 1 * offshoreFixedFoundations
               + Rabs dist * (offshoreOMKm + offshoreInstallationKm
                              + offshoreCableKm))).
Proof.
  repeat split; intros; unfold offshore_inputs_gw, offshore_base,
    scaling_factor_fixed_foundations; fin_eq.
Qed.

Lemma scaling_factor_band (elev : R) :
  scaling_factor_fixed_foundations (Fin elev) = Fin (foundation_band elev).
Proof.
  unfold scaling_factor_fixed_foundations, foundation_band. fin_eq.
Qed.

End OffshoreInputs.

(** C2: on every finite elevation the sum of indicator-weighted terms
    is the factor of the single band the elevation falls in (1.00 above
    -15, 1.08 on (-20,-15], 1.34 on (-25,-20], 1.57 on (-30,-25], 1.95
    on (-35,-30], 2.19 on (-40,-35]); the six conditions are mutually
    exclusive, exactly one holds above -40 and none at or below; the
    factor is 1.08 at -18, 1.00 at -10 and 2.19 at -36. *)
Theorem scaling_factor_single_band :
  (forall elev : R,
     scaling_factor_fixed_foundations (Fin elev) = Fin (foundation_band elev))
  /\ (forall elev : R,
        length (List.filter (fun b : bool => b) (foundation_conditions (Fin elev)))
        = if decide (-40 < elev) then 1%nat else 0%nat)
  /\ scaling_factor_fixed_foundations (Fin (-18)) = Fin 1.08
  /\ scaling_factor_fixed_foundations (Fin (-10)) = Fin 1.00
  /\ scaling_factor_fixed_foundations (Fin (-36)) = Fin 2.19.
Proof.
  split; [exact scaling_factor_band |].
  split.
  { intros elev. unfold foundation_conditions. fin_eq. }
  repeat split; rewrite scaling_factor_band; f_equal;
    unfold foundation_band; real_cases; lra.
Qed.

(** ** The Weibull shape on numbers *)

Lemma half_sum_fin (a b : R) : ((Fin a + Fin b) / 2)%fl = Fin ((a + b) / 2).
Proof. cbn [fl_add]. apply fl_div_fin. lra. Qed.

Lemma weibull_k_pos (s m : R) :
  0 < m -> 0 < s ->
  weibull_k (Fin s) (Fin m) = Fin (Rpower (s / m) (-1.086)).
Proof.
  intros Hm Hs. unfold weibull_k. rewrite fl_div_fin by lra.
  unfold fl_pow. case_decide as Hp; [reflexivity |].
  exfalso. apply Hp. apply Rdiv_lt_0_compat; assumption.
Qed.


(** A zero mean with a zero deviation: the ratio 0/0 is NaN. *)
Lemma weibull_k_no_wind : weibull_k (Fin 0) (Fin 0) = NaN.
Proof. unfold weibull_k. cbn. real_cases. reflexivity. Qed.

(** ** The grid builder *)

Section Grid.
Context `{model_params} `{model_methods} `{py_math}.

Lemma discard_cells_filter (df : list raw_cell) (r : raw_cell) :
  In r (discard_cells df) <->
  In r df
  /\ country_kept r = true
  /\ str_in "Island" (py_str (Country r)) = false
  /\ str_in "Is." (py_str (Country r)) = false
  /\ (Elev r >=? maxWaterDepth_wind)%fl = true
  /\ isnull (v_r_opti r) = false.
Proof.
  unfold discard_cells. rewrite !filter_In, !negb_true_iff. tauto.
Qed.

(** The Weibull shape is NaN, +inf or a finite non-negative number. *)
Lemma weibull_k_range (std100 mean100 : fl) :
  weibull_k std100 mean100 = NaN
  \/ weibull_k std100 mean100 = PInf
  \/ exists v : R, weibull_k std100 mean100 = Fin v /\ 0 <= v.
Proof.
  unfold weibull_k, fl_pow.
  destruct (std100 / mean100)%fl as [x | | |]; real_cases; eauto.
  - right; right. eexists; split; [reflexivity |]. left. apply exp_pos.
  - right; right. eexists; split; [reflexivity | lra].
  - right; right. eexists; split; [reflexivity | lra].
Qed.

Lemma math_gamma_fin (x : R) :
  0 < x -> gamma_tiny <= x -> x <= gamma_limit ->
  math_gamma (Fin x) = Some (Fin (Gamma x)).
Proof.
  intros Hx Ht Hl. unfold math_gamma. case_decide as Hq; [destruct Hq; lra |].
  case_decide as Ho; [| reflexivity].
  rewrite Rabs_pos_eq in Ho by lra. destruct Ho; lra.
Qed.


(** What [math.gamma] returns at a number, when it returns. *)
Lemma math_gamma_Some (x : R) (g : fl) :
  math_gamma (Fin x) = Some g -> g = Fin (Gamma x) /\ x <= gamma_limit.
Proof.
  unfold math_gamma. case_decide; [discriminate |].
  case_decide as Ho; [discriminate |]. intros [= <-].
  split; [reflexivity |]. apply Rnot_lt_le. intros Hl. apply Ho. left. exact Hl.
Qed.

Lemma gamma_arg_fin (v : R) :
  0 < v -> (1 + 1 / Fin v)%fl = Fin (1 + 1 / v) /\ 0 < 1 + 1 / v.
Proof.
  intros Hv. rewrite fl_div_fin by lra. split; [reflexivity |].
  assert (0 < 1 / v) by (apply Rdiv_lt_0_compat; lra). lra.
Qed.

Lemma gamma_arg_zero : (1 + 1 / Fin 0)%fl = PInf.
Proof. cbn. real_cases. reflexivity. Qed.

(** [math.gamma] is never called at a pole: the scale is computed as
    soon as the argument [1 + 1/k] does not exceed [gamma_limit]. *)
Lemma weibull_c_returns (mean100 std100 : fl) :
  gamma_tiny <= 1 <= gamma_limit ->
  (forall v : R, weibull_k std100 mean100 = Fin v -> 0 < v ->
                 1 + 1 / v <= gamma_limit) ->
  is_Some (weibull_c mean100 (weibull_k std100 mean100)).
Proof.
  intros Hone Hlim. unfold weibull_c.
  destruct (weibull_k_range std100 mean100) as [E | [E | (v & E & Hv)]];
    rewrite E in *.
  - cbn. eauto.
  - change (1 + 1 / PInf)%fl with (Fin (1 + 0)).
    rewrite math_gamma_fin by lra. cbn. eauto.
  - destruct Hv as [Hv | <-].
    + destruct (gamma_arg_fin v Hv) as [-> Hpos].
      assert (0 < 1 / v) by (apply Rdiv_lt_0_compat; lra).
      rewrite math_gamma_fin by (try apply Hlim; auto; lra). cbn. eauto.
    + rewrite gamma_arg_zero. cbn. eauto.
Qed.

(** The argument of [math.gamma] in terms of the ratio of the deviation
    to the mean. *)
Lemma gamma_arg_of_ratio (x : R) :
  1 + 1 / Rpower x (-1.086) = 1 + Rpower x 1.086.
Proof.
  replace (-1.086) with (Ropp 1.086) by lra. rewrite Rpower_Ropp.
  unfold Rdiv. rewrite Rmult_1_l, Rinv_inv. reflexivity.
Qed.

Lemma gamma_arg_moderate (x : R) :
  0 < x <= 1 -> 1 + 1 / Rpower x (-1.086) <= 2.
Proof.
  intros Hx. rewrite gamma_arg_of_ratio.
  assert (Rpower x 1.086 <= Rpower 1 1.086)
    by (apply Rle_Rpower_l; [lra | exact Hx]).
  assert (Rpower 1 1.086 = 1)
    by (unfold Rpower; rewrite ln_1, Rmult_0_r; apply exp_0).
  lra.
Qed.

(** With a zero mean the shape is NaN or 0. *)
Lemma weibull_k_at_zero_mean (std100 : fl) :
  (std100 = Fin 0 \/ std100 = NaN) /\ weibull_k std100 (Fin 0) = NaN
  \/ (std100 <> Fin 0 /\ std100 <> NaN) /\ weibull_k std100 (Fin 0) = Fin 0.
Proof.
  unfold weibull_k. destruct std100 as [s | | |]; cbn.
  - destruct (Rtotal_order s 0) as [Hs | [-> | Hs]].
    + right. real_cases. cbn. real_cases.
      split; [split; [intros [= ->]; lra | discriminate] | reflexivity].
    + left. real_cases. split; [left |]; reflexivity.
    + right. real_cases. cbn. real_cases.
      split; [split; [intros [= ->]; lra | discriminate] | reflexivity].
  - right. real_cases. cbn. real_cases. split; [split; discriminate | reflexivity].
  - right. real_cases. cbn. real_cases. split; [split; discriminate | reflexivity].
  - left. split; [right |]; reflexivity.
Qed.


(** A cell is built when its deviation does not exceed its mean, and
    when its mean is zero. *)
Lemma build_cell_returns (r : raw_cell) (m s : R) :
  ((WindMean71 r + WindMean125 r) / 2)%fl = Fin m ->
  ((WindStd71 r + WindStd125 r) / 2)%fl = Fin s ->
  m = 0 \/ 0 <= s <= m ->
  gamma_tiny <= 1 -> 2 <= gamma_limit ->
  is_Some (build_cell r).
Proof.
  intros Em Es Hms Htiny Hlim. unfold build_cell. rewrite Em, Es.
  destruct (weibull_c_returns (Fin m) (Fin s)) as [cv ->]; [lra | | cbn; eauto].
  intros v Hk Hv.
  destruct (Req_dec m 0) as [-> | Hm].
  - destruct (weibull_k_at_zero_mean (Fin s)) as [[_ E] | [_ E]];
      rewrite E in Hk; [discriminate |]. injection Hk as <-. lra.
  - assert (Hm0 : 0 < m) by lra.
    destruct (Req_dec s 0) as [-> | Hs].
    + exfalso. revert Hk. unfold weibull_k. rewrite fl_div_fin by lra.
      replace (0 / m) with 0 by (field; lra). cbn. real_cases. discriminate.
    + rewrite weibull_k_pos in Hk by lra. injection Hk as <-.
      apply Rle_trans with (2 := Hlim). apply gamma_arg_moderate. split.
      * apply Rdiv_lt_0_compat; lra.
      * apply Rmult_le_reg_r with m; [lra |].
        unfold Rdiv. rewrite Rmult_assoc, Rinv_l by lra. lra.
Qed.

(** The grid is built when every kept row gives a cell. *)
Lemma world_grid_returns (df : list raw_cell) :
  (forall r, In r (discard_cells df) -> is_Some (build_cell r)) ->
  is_Some (world_grid df).
Proof.
  intros Hall. unfold world_grid. apply mapM_is_Some, Forall_forall.
  intros r Hr. apply Hall, list_elem_of_In, Hr.
Qed.


(** Every cell of the built grid is built from a kept row. *)
Lemma world_grid_cell (df : list raw_cell) (g : list grid_cell) (x : grid_cell) :
  world_grid df = Some g -> In x g ->
  exists r, In r (discard_cells df) /\ build_cell r = Some x.
Proof.
  unfold world_grid. intros Hg%mapM_Some Hx.
  induction Hg as [| r y l l' Hr _ IH]; [destruct Hx |].
  destruct Hx as [-> | Hx].
  - exists r. split; [left; reflexivity | exact Hr].
  - destruct (IH Hx) as (r' & Hin & Hb). exists r'. split; [right |]; assumption.
Qed.

Lemma build_cell_src (r : raw_cell) (x : grid_cell) :
  build_cell r = Some x -> src x = r.
Proof.
  unfold build_cell. intros Hx.
  destruct (weibull_c _ _); [| discriminate].
  cbn in Hx. injection Hx as <-. reflexivity.
Qed.

End Grid.

(** The sample cells are built: [math.gamma] returns for each of them. *)
Ltac sample_wind :=
  cbn [WindMean71 WindMean125 WindStd71 WindStd125 sample_cell calm_cell
       malaysia_cell deep_cell barren_cell uncharted_cell];
  rewrite half_sum_fin; f_equal; lra.

Lemma sample_cells_return (r : raw_cell) :
  In r sample_cells ->
  is_Some (@build_cell sample_params sample_methods sample_math r).
Proof.
  assert (Htiny : @gamma_tiny sample_math <= 1)
    by (cbn [gamma_tiny sample_math]; lra).
  assert (Hlim : 2 <= @gamma_limit sample_math) by (cbn; lra).
  unfold sample_cells. cbn [In].
  intros [<- | [<- | [<- | [<- | [<- | [<- | [<- | []]]]]]]].
  - apply build_cell_returns with (m := (7 + 9) / 2) (s := (3 + 4) / 2);
      [sample_wind | sample_wind | lra | exact Htiny | exact Hlim].
  - apply build_cell_returns with (m := 0) (s := (1 + 1) / 2);
      [sample_wind | sample_wind | lra | exact Htiny | exact Hlim].
  - apply build_cell_returns with (m := (3 + 4) / 2) (s := (1.5 + 2) / 2);
      [sample_wind | sample_wind | lra | exact Htiny | exact Hlim].
  - apply build_cell_returns with (m := (3 + 4) / 2) (s := (1.5 + 2) / 2);
      [sample_wind | sample_wind | lra | exact Htiny | exact Hlim].
  - apply build_cell_returns with (m := (8 + 10) / 2) (s := (4 + 5) / 2);
      [sample_wind | sample_wind | lra | exact Htiny | exact Hlim].
  - apply build_cell_returns with (m := (5 + 6) / 2) (s := (0 + 0) / 2);
      [sample_wind | sample_wind | lra | exact Htiny | exact Hlim].
  - apply build_cell_returns with (m := (7 + 9) / 2) (s := (3 + 4) / 2);
      [sample_wind | sample_wind | lra | exact Htiny | exact Hlim].
Qed.

Lemma sample_grid_returns (df : list raw_cell) :
  incl df sample_cells ->
  is_Some (@world_grid sample_params sample_methods sample_math df).
Proof.
  intros Hin. apply world_grid_returns. intros r Hr.
  apply sample_cells_return, Hin.
  apply (proj1 (@discard_cells_filter sample_params df r) Hr).
Qed.

Ltac in_sample_cells :=
  unfold sample_cells; cbn [In]; repeat first [left; reflexivity | right].

Ltac incl_sample_cells :=
  let r := fresh "r" in
  let Hr := fresh "Hr" in
  intros r Hr; unfold sample_wind_solar in Hr; cbn [In] in Hr;
  repeat (destruct Hr as [<- | Hr]; [in_sample_cells |]); destruct Hr.

(** ** The exclusion filter *)

Lemma append_cons (a : Ascii.ascii) (s t : string) :
  (String a s +:+ t)%string = String a (s +:+ t).
Proof. reflexivity. Qed.

Lemma prefix_append (pat s : string) :
  String.prefix pat s = true <-> exists post, s = (pat +:+ post)%string.
Proof.
  revert s. induction pat as [| a pat IH]; intros s.
  - split; [intros _; exists s; reflexivity | destruct s; reflexivity].
  - destruct s as [| b s]; cbn; [split; [discriminate | intros [? [=]]] |].
    destruct (Ascii.ascii_dec a b) as [-> | Hab].
    + rewrite IH. split; intros [post Hp]; exists post;
        rewrite append_cons in *; congruence.
    + split; [discriminate |].
      intros [post Hp]. rewrite append_cons in Hp. congruence.
Qed.

(** [str_in] decides the occurrence of a pattern. *)
Lemma str_in_occurs (pat s : string) :
  str_in pat s = true <-> occurs_in pat s.
Proof.
  unfold occurs_in. induction s as [| a s IH].
  - cbn [str_in]. rewrite orb_false_r, prefix_append. split.
    + intros [post Hp]. exists EmptyString, post. exact Hp.
    + intros ([| ? ?] & post & Hp); [exists post; exact Hp | discriminate].
  - cbn [str_in]. rewrite orb_true_iff, prefix_append, IH. split.
    + intros [[post Hp] | (pre & post & Hp)].
      * exists EmptyString, post. exact Hp.
      * exists (String a pre), post. rewrite append_cons. congruence.
    + intros ([| b pre] & post & Hp).
      * left. exists post. exact Hp.
      * right. exists pre, post. rewrite append_cons in Hp. congruence.
Qed.

Lemma str_in_not_occurs (pat s : string) :
  str_in pat s = false <-> ~ occurs_in pat s.
Proof.
  rewrite <- str_in_occurs. destruct (str_in pat s); split; congruence.
Qed.

Section Filter.
Context `{model_params}.

Lemma country_kept_spec (r : raw_cell) :
  country_kept r = true <->
  exists s, Country r = Some s
            /\ s <> "Antarctica"%string /\ s <> "Greenland"%string
            /\ s <> "French Southern & Antarctic Lands"%string.
Proof.
  unfold country_kept. destruct (Country r) as [s |].
  - rewrite !andb_true_iff, !negb_true_iff, !String.eqb_neq. split.
    + intros [[? ?] ?]. exists s. tauto.
    + intros (s' & [= <-] & ?). tauto.
  - split; [discriminate | intros (s & [=] & _)].
Qed.

Lemma retained_filter (r : raw_cell) :
  retained r <->
  country_kept r = true
  /\ str_in "Island" (py_str (Country r)) = false
  /\ str_in "Is." (py_str (Country r)) = false
  /\ (Elev r >=? maxWaterDepth_wind)%fl = true
  /\ isnull (v_r_opti r) = false.
Proof.
  unfold retained. rewrite country_kept_spec, !str_in_not_occurs.
  assert (Hnull : isnull (v_r_opti r) = false <-> v_r_opti r <> NaN)
    by (destruct (v_r_opti r); cbn; split; congruence).
  rewrite Hnull. split.
  - intros ((s & Hs & ? & ? & ? & ? & ?) & ? & ?). rewrite Hs. cbn.
    repeat split; eauto 10.
  - intros ((s & Hs & ? & ? & ?) & Hi & Hd & ? & ?). rewrite Hs in Hi, Hd.
    repeat split; eauto 10.
Qed.

(** C7: the filter keeps exactly the records whose country is named,
    is none of Antarctica, Greenland and French Southern & Antarctic
    Lands, contains neither [Island] nor [Is.], whose elevation is at or
    above the configured minimum and whose [v_r_opti] is present.  A
    record of Iceland that meets the other conditions is kept; a record
    of Baker Island and a record without a country are dropped. *)
Theorem exclusion_filter (df : list raw_cell) :
  (forall r, In r (discard_cells df) <-> In r df /\ retained r)
  /\ (forall r, In r df -> Country r = Some "Iceland"%string ->
                (Elev r >=? maxWaterDepth_wind)%fl = true ->
                v_r_opti r <> NaN ->
                In r (discard_cells df))
  /\ (forall r, Country r = Some "Baker Island"%string ->
                ~ In r (discard_cells df))
  /\ (forall r, Country r = None -> ~ In r (discard_cells df)).
Proof.
  assert (Hiff : forall r, In r (discard_cells df) <-> In r df /\ retained r)
    by (intros r; rewrite discard_cells_filter, retained_filter; tauto).
  split; [exact Hiff |]. repeat split.
  - intros r Hin Hc He Hv. apply Hiff. split; [exact Hin |].
    apply retained_filter. unfold country_kept. rewrite Hc. cbn.
    repeat split; [exact He |]. destruct (v_r_opti r); cbn; congruence.
  - intros r Hc [_ Hr]%Hiff. apply retained_filter in Hr.
    rewrite Hc in Hr. cbn in Hr. destruct Hr as (_ & [=] & _).
  - intros r Hc [_ Hr]%Hiff. apply retained_filter in Hr.
    unfold country_kept in Hr. rewrite Hc in Hr. destruct Hr as ([=] & _).
Qed.

End Filter.

(** The sample cell of France passes the filter of the sample
    configuration. *)
Lemma exclusion_filter_witness :
  In sample_cell (@discard_cells sample_params [sample_cell])
  /\ @retained sample_params sample_cell.
Proof.
  pose proof (proj1 (@exclusion_filter sample_params [sample_cell]) sample_cell)
    as Hiff.
  assert (Hin : In sample_cell (@discard_cells sample_params [sample_cell])).
  { unfold discard_cells. cbn. real_cases. cbn. left. reflexivity. }
  split; [exact Hin |]. apply Hiff. exact Hin.
Defined.

(** ** Offshore suitability *)

Lemma coast_derating_fin (dist sf : R) :
  coast_derating (Fin dist) (Fin sf) = Fin (sf * coast_factor dist).
Proof. unfold coast_derating, coast_factor. fin_eq. Qed.

Lemma coast_factor_mono (d1 d2 : R) :
  d1 <= d2 -> coast_factor d1 <= coast_factor d2.
Proof. intros Hd. unfold coast_factor. real_cases; lra. Qed.

Lemma coast_factor_unit (dist : R) : 0 <= coast_factor dist <= 1.
Proof. unfold coast_factor. real_cases; lra. Qed.

Section Suitability.
Context `{model_params} `{model_methods} `{py_math}.

Lemma build_cell_offshore_sf (r : raw_cell) (x : grid_cell) :
  build_cell r = Some x ->
  wind_sf_offshore x
  = coast_derating (DistCoast r)
      (zero_below_depth (Elev r) (compute_sf (sf_files +:+ "wind_offshore") r)).
Proof.
  unfold build_cell. intros Hx.
  destruct (weibull_c _ _); [| discriminate].
  cbn in Hx. injection Hx as <-. reflexivity.
Qed.

(** The derating of a number by the distance to the coast, whatever the
    distance: a missing distance is in no band. *)
Lemma coast_derating_value (dist : fl) (sf : R) :
  coast_derating dist (Fin sf)
  = Fin (sf * match dist with
              | Fin d => coast_factor d
              | PInf => 0.67
              | NInf => 0.1
              | NaN => 1
              end).
Proof.
  destruct dist as [d | | |].
  - apply coast_derating_fin.
  - unfold coast_derating. cbn. real_cases. reflexivity.
  - unfold coast_derating. cbn. real_cases. reflexivity.
  - unfold coast_derating. cbn. f_equal. lra.
Qed.

Lemma coast_derating_mono (nearer farther : fl) (sf : R) :
  0 <= sf -> (nearer <=? farther)%fl = true ->
  (coast_derating nearer (Fin sf) <=? coast_derating farther (Fin sf))%fl = true.
Proof.
  intros Hsf Hle. rewrite !coast_derating_value, fl_leb_fin.
  apply bool_decide_eq_true. apply Rmult_le_compat_l; [exact Hsf |].
  destruct nearer as [d1 | | |], farther as [d2 | | |];
    cbn in Hle; try discriminate; try lra.
  - apply coast_factor_mono. apply bool_decide_eq_true in Hle. exact Hle.
  - pose proof (coast_factor_unit d1). unfold coast_factor. real_cases; lra.
  - unfold coast_factor. real_cases; lra.
Qed.

(** C3: the offshore suitability of a built cell is the resolved
    suitability, reset to zero when the elevation is below the
    configured depth, times the factor of the one distance-to-coast band
    of the cell (0.67 from 37.04 km, 0.33 on [9.26, 37.04), 0.1 below
    9.26 km), when the cell has a distance to the coast: exactly one of
    the three update conditions then holds.  A cell without a distance
    to the coast satisfies none of the three conditions and keeps the
    value it had before the derating, which is more than any band would
    leave of it.  For a non-negative suitability the derated value does
    not increase when the distance to the coast decreases. *)
Theorem offshore_suitability_derating
    (r : raw_cell) (x : grid_cell) (s : R) :
  build_cell r = Some x ->
  compute_sf (sf_files +:+ "wind_offshore") r = Fin s ->
  0 <= s ->
  let pre := match Elev r with
             | Fin elev => if decide (elev < maxWaterDepth_wind) then 0 else s
             | NInf => 0
             | _ => s
             end in
  let factor := match DistCoast r with
                | Fin dist => coast_factor dist
                | PInf => 0.67
                | NInf => 0.1
                | NaN => 1
                end in
  wind_sf_offshore x = Fin (pre * factor)
  /\ length (List.filter (fun b : bool => b) (coast_conditions (DistCoast r)))
     = (if isnull (DistCoast r) then 0 else 1)%nat
  /\ (forall nearer farther : fl,
        (nearer <=? farther)%fl = true ->
        (coast_derating nearer (Fin pre)
         <=? coast_derating farther (Fin pre))%fl = true)
  /\ (forall dist : fl,
        isnull dist = false -> 0 < pre ->
        (coast_derating dist (Fin pre) <? coast_derating NaN (Fin pre))%fl = true).
Proof.
  intros Hx Hs Hs0 pre factor.
  assert (Hpre : 0 <= pre)
    by (unfold pre; destruct (Elev r); real_cases; lra).
  assert (Hz : zero_below_depth (Elev r) (Fin s) = Fin pre).
  { unfold zero_below_depth, pre. destruct (Elev r) as [e | | |]; cbn;
      real_cases; reflexivity. }
  split; [| split; [| split]].
  - rewrite (build_cell_offshore_sf r x Hx), Hs, Hz.
    apply coast_derating_value.
  - unfold coast_conditions. destruct (DistCoast r); fin_eq.
  - intros nearer farther Hle. apply coast_derating_mono; assumption.
  - intros dist Hd Hp. rewrite !coast_derating_value, fl_ltb_fin.
    apply bool_decide_eq_true.
    destruct dist as [d | | |]; [| | | discriminate].
    + pose proof (coast_factor_unit d). unfold coast_factor in *.
      real_cases; nra.
    + nra.
    + nra.
Qed.

End Suitability.

(** The sample cell lies 40 km from the coast: its resolved suitability
    0.5 is derated by the factor 0.67. *)
Lemma offshore_suitability_derating_witness :
  exists x : grid_cell,
    @build_cell sample_params sample_methods sample_math sample_cell = Some x
    /\ wind_sf_offshore x = Fin (0.5 * 0.67).
Proof.
  destruct (sample_cells_return sample_cell) as [x Hx]; [in_sample_cells |].
  exists x. split; [exact Hx |].
  destruct (@offshore_suitability_derating sample_params sample_methods
              sample_math sample_cell x 0.5 Hx eq_refl ltac:(lra)) as [Hsf _].
  rewrite Hsf. unfold coast_factor. cbn. real_cases; f_equal; lra.
Defined.

(** The uncharted cell has no distance to the coast: the selections keep
    it, none of the three band conditions holds for it, and its
    suitability 0.5 is left as resolved, where every band would have
    reduced it. *)
Lemma offshore_derating_without_distance :
  @discard_cells sample_params [uncharted_cell] = [uncharted_cell]
  /\ List.filter (fun b : bool => b) (coast_conditions (DistCoast uncharted_cell))
     = []
  /\ wind_sf_offshore
       <$> @build_cell sample_params sample_methods sample_math uncharted_cell
     = Some (Fin 0.5).
Proof.
  split; [| split].
  - unfold discard_cells. cbn. real_cases. reflexivity.
  - reflexivity.
  - destruct (sample_cells_return uncharted_cell) as [x Hx]; [in_sample_cells |].
    rewrite Hx. cbn [fmap option_fmap option_map]. f_equal.
    rewrite (@build_cell_offshore_sf sample_params sample_methods sample_math
               _ _ Hx).
    unfold zero_below_depth, coast_derating. cbn. real_cases. reflexivity.
Qed.

(** ** Suitable areas *)

Lemma within_product (a s : R) :
  0 <= a -> 0 <= s <= 1 -> within (Fin a * Fin s)%fl (Fin a).
Proof.
  intros Ha Hs. exists (a * s), a. repeat split; [nra | nra].
Qed.

Lemma coast_derating_unit (dist sf : fl) :
  unit_fraction sf -> unit_fraction (coast_derating dist sf).
Proof.
  intros (s & -> & Hs). destruct dist as [d | | |].
  - rewrite coast_derating_fin. eexists; split; [reflexivity |].
    pose proof (coast_factor_unit d). nra.
  - unfold coast_derating. cbn. real_cases. cbn. eexists; split; [reflexivity | lra].
  - unfold coast_derating. cbn. real_cases. cbn. eexists; split; [reflexivity | lra].
  - unfold coast_derating. cbn. eexists; split; [reflexivity | lra].
Qed.

Section SuitableArea.
Context `{model_params} `{model_methods} `{py_math}.

Lemma zero_below_depth_unit (elev sf : fl) :
  unit_fraction sf -> unit_fraction (zero_below_depth elev sf).
Proof.
  intros Hs. unfold zero_below_depth. destruct (elev <? _)%fl; [| exact Hs].
  exists 0. split; [reflexivity | lra].
Qed.

Lemma unit_fraction_product (a b : fl) :
  unit_fraction a -> unit_fraction b -> unit_fraction (a * b)%fl.
Proof.
  intros (s & -> & Hs) (t & -> & Ht). exists (s * t).
  split; [reflexivity | nra].
Qed.

(** C6: in every cell of the built grid the suitable area of each
    technology is the cell area times the suitability fraction of the
    technology; when the cell area is finite and non-negative and the
    resolved suitability factors of the cell are fractions between 0
    and 1, every suitable area lies between 0 and the cell area. *)
Theorem suitable_area_bounds
    (df : list raw_cell) (g : list grid_cell) (x : grid_cell) (a : R) :
  world_grid df = Some g -> In x g ->
  Area x = Fin a -> 0 <= a ->
  (forall file, unit_fraction (compute_sf file (src x))) ->
  (wind_area_onshore x = (Area x * wind_sf_onshore x)%fl
   /\ wind_area_offshore x = (Area x * wind_sf_offshore x)%fl
   /\ pv_area x = (Area x * pv_sf x)%fl
   /\ csp_area x = (Area x * csp_sf x)%fl)
  /\ (within (wind_area_onshore x) (Area x)
      /\ within (wind_area_offshore x) (Area x)
      /\ within (pv_area x) (Area x)
      /\ within (csp_area x) (Area x)).
Proof.
  intros Hg Hx Ha Ha0 Hsf.
  destruct (world_grid_cell df g x Hg Hx) as (r & _ & Hb).
  pose proof (build_cell_src r x Hb) as Hsrc. rewrite Hsrc in Hsf.
  revert Hb Ha. unfold build_cell.
  destruct (weibull_c _ _); [| discriminate].
  cbn. intros [= <-]. cbn. intros Ha.
  split; [repeat split |].
  assert (Hw : forall s, unit_fraction s -> within (area (Lat r) * s)%fl (area (Lat r))).
  { intros s (v & -> & Hv). rewrite Ha. apply within_product; assumption. }
  repeat split; apply Hw.
  - apply Hsf.
  - apply coast_derating_unit, zero_below_depth_unit, Hsf.
  - apply unit_fraction_product; apply Hsf.
  - apply unit_fraction_product; apply Hsf.
Qed.

End SuitableArea.

Lemma sample_area_pos : 0 < 6.9e9 * cos (45 * PI / 180).
Proof.
  apply Rmult_lt_0_compat; [lra |]. apply cos_gt_0.
  - pose proof PI_RGT_0. lra.
  - pose proof PI_RGT_0. lra.
Qed.

(** The grid built from the sample cell: its one cell has a cell area of
    [6.9e9 * cos (45 * PI / 180)] and all suitability factors 0.5. *)
Lemma suitable_area_bounds_witness :
  exists (g : list grid_cell) (x : grid_cell),
    @world_grid sample_params sample_methods sample_math [sample_cell] = Some g
    /\ In x g
    /\ within (wind_area_offshore x) (Area x)
    /\ within (pv_area x) (Area x).
Proof.
  destruct (sample_grid_returns [sample_cell]) as [g Hg]; [incl_sample_cells |].
  assert (Hd : @discard_cells sample_params [sample_cell] = [sample_cell]).
  { unfold discard_cells. cbn. real_cases. reflexivity. }
  pose proof Hg as Hg'. unfold world_grid in Hg'. rewrite Hd in Hg'.
  destruct (sample_cells_return sample_cell) as [x Hx]; [in_sample_cells |].
  cbn [mapM] in Hg'. rewrite Hx in Hg'. cbn in Hg'. injection Hg' as <-.
  exists [x], x.
  assert (Hin : In x [x]) by (left; reflexivity).
  assert (Hsrc := @build_cell_src sample_params sample_methods sample_math _ _ Hx).
  assert (Ha : Area x = Fin (6.9e9 * cos (45 * PI / 180))).
  { revert Hx. unfold build_cell.
    destruct (weibull_c _ _); [| discriminate]. cbn. intros [= <-]. reflexivity. }
  destruct (@suitable_area_bounds sample_params sample_methods sample_math
              [sample_cell] [x] x _ Hg Hin Ha (Rlt_le _ _ sample_area_pos))
    as (_ & _ & Ho & Hp & _).
  { intros file. rewrite Hsrc. exists 0.5. split; [reflexivity | lra]. }
  repeat split; assumption.
Defined.

(** ** Hub height and air density *)

Lemma hub_height_fin (elev : R) :
  hub_height (Fin elev) = Fin (Rmax elev 0 + 100).
Proof.
  unfold hub_height, Rmax. cbn.
  destruct (Rle_dec elev 0); real_cases; f_equal; lra.
Qed.

Lemma hub_height_max (elev : fl) :
  elev <> NaN -> elev <> NInf -> hub_height elev = (fl_max elev 0 + 100)%fl.
Proof.
  intros Hn Hi. destruct elev as [e | | |]; try congruence.
  - unfold hub_height, fl_max. fin_eq.
  - unfold hub_height, fl_max. cbn. unfold inf_times. real_cases. reflexivity.
Qed.

(** The last height of the range on which the pressure base is positive. *)
Lemma pressure_base_pos (z : R) :
  z < 288.15 / 0.0065 -> 0 < 1 - 0.0065 * z / 288.15.
Proof. intros Hz. lra. Qed.

Lemma density_closed_form (z : R) :
  z < 288.15 / 0.0065 ->
  density_of_pressure (pressure (Fin z)) = Fin (barometric_density z).
Proof.
  intros Hz. pose proof (pressure_base_pos z Hz) as Hb.
  unfold density_of_pressure, pressure, barometric_density.
  cbn [fl_mul fl_sub fl_add fl_opp].
  rewrite fl_div_fin by lra. cbn [fl_sub fl_add fl_opp fl_pow].
  case_decide as Hp; [| exfalso; apply Hp; lra].
  cbn [fl_mul]. rewrite fl_div_fin by lra.
  f_equal.
Qed.

Lemma barometric_density_decreasing (z1 z2 : R) :
  z1 < z2 -> z2 < 288.15 / 0.0065 ->
  barometric_density z2 < barometric_density z1.
Proof.
  intros H12 H2. unfold barometric_density.
  assert (Hp : Rpower (1 - 0.0065 * z2 / 288.15) 5.255
               < Rpower (1 - 0.0065 * z1 / 288.15) 5.255).
  { apply Rlt_Rpower_l; [lra |]. split; [apply pressure_base_pos, H2 | lra]. }
  apply Rmult_lt_compat_r; [apply Rinv_0_lt_compat; lra |].
  apply Rmult_lt_compat_l; [lra | exact Hp].
Qed.

Lemma barometric_density_sea_level :
  barometric_density 0 = 101325 / (287.05 * 288.15).
Proof.
  unfold barometric_density.
  replace (1 - 0.0065 * 0 / 288.15) with 1 by lra.
  unfold Rpower. rewrite ln_1, Rmult_0_r, exp_0. lra.
Qed.

Section AirDensity.
Context `{model_params} `{model_methods} `{py_math}.

Lemma build_cell_density (r : raw_cell) (x : grid_cell) :
  build_cell r = Some x ->
  z x = hub_height (Elev r)
  /\ P x = pressure (z x)
  /\ air_density x = density_of_pressure (P x).
Proof.
  unfold build_cell. intros Hx.
  destruct (weibull_c _ _); [| discriminate].
  cbn in Hx. injection Hx as <-. repeat split.
Qed.

Lemma kept_elev (df : list raw_cell) (r : raw_cell) :
  In r (discard_cells df) -> Elev r <> NaN /\ Elev r <> NInf.
Proof.
  intros (_ & _ & _ & _ & He & _)%discard_cells_filter.
  destruct (Elev r); cbn in He; split; congruence.
Qed.

(** C5: in every cell of the built grid the hub height is
    [max(Elev, 0) + 100], the pressure and the air density are computed
    from it by the barometric formula, and below the height
    [288.15 / 0.0065] the air density is the real number
    [101325 * (1 - 0.0065 z / 288.15)^5.255 / (287.05 * 288.15)]; on
    that range the air density strictly decreases with the height, and
    at height 0 it is [101325 / (287.05 * 288.15)]. *)
Theorem hub_height_air_density
    (df : list raw_cell) (g : list grid_cell) (x : grid_cell) :
  world_grid df = Some g -> In x g ->
  (z x = (fl_max (Elev (src x)) 0 + 100)%fl
   /\ (forall elev : R, Elev (src x) = Fin elev -> z x = Fin (Rmax elev 0 + 100))
   /\ P x = (101325 * fl_pow (1 - 0.0065 * z x / 288.15) 5.255)%fl
   /\ air_density x = (P x / (287.05 * 288.15)%R)%fl
   /\ (forall h : R, z x = Fin h -> h < 288.15 / 0.0065 ->
         air_density x = Fin (barometric_density h)))
  /\ (forall z1 z2 : R, z1 < z2 -> z2 < 288.15 / 0.0065 ->
        (density_of_pressure (pressure (Fin z2))
         <? density_of_pressure (pressure (Fin z1)))%fl = true)
  /\ density_of_pressure (pressure (Fin 0)) = Fin (101325 / (287.05 * 288.15)).
Proof.
  intros Hg Hx.
  destruct (world_grid_cell df g x Hg Hx) as (r & Hr & Hb).
  rewrite (build_cell_src r x Hb).
  destruct (build_cell_density r x Hb) as (Hz & HP & Hd).
  destruct (kept_elev df r Hr) as [Hnan Hinf].
  split; [repeat split |]; [.. | split].
  - rewrite Hz. apply hub_height_max; assumption.
  - intros elev He. rewrite Hz, He. apply hub_height_fin.
  - exact HP.
  - exact Hd.
  - intros h Hh Hrange. rewrite Hd, HP, Hh. apply density_closed_form, Hrange.
  - intros z1 z2 H12 H2. rewrite !density_closed_form by lra.
    rewrite fl_ltb_fin. apply bool_decide_eq_true.
    apply barometric_density_decreasing; assumption.
  - rewrite density_closed_form by lra. f_equal.
    apply barometric_density_sea_level.
Qed.

End AirDensity.

(** The grid built from the sample cell has one cell. *)
Lemma sample_grid :
  exists x : grid_cell,
    @build_cell sample_params sample_methods sample_math sample_cell = Some x
    /\ @world_grid sample_params sample_methods sample_math [sample_cell]
       = Some [x].
Proof.
  destruct (sample_cells_return sample_cell) as [x Hx]; [in_sample_cells |].
  exists x. split; [exact Hx |].
  assert (Hd : @discard_cells sample_params [sample_cell] = [sample_cell]).
  { unfold discard_cells. cbn. real_cases. reflexivity. }
  unfold world_grid. rewrite Hd. cbn [mapM]. rewrite Hx. reflexivity.
Qed.

(** The sample cell lies 18 m under water: its hub height is 100 m. *)
Lemma hub_height_air_density_witness :
  exists x : grid_cell,
    @world_grid sample_params sample_methods sample_math [sample_cell] = Some [x]
    /\ z x = Fin (Rmax (-18) 0 + 100)
    /\ air_density x = Fin (barometric_density 100).
Proof.
  destruct sample_grid as (x & Hx & Hg).
  assert (Hin : In x [x]) by (left; reflexivity).
  assert (Hsrc := @build_cell_src sample_params sample_methods sample_math _ _ Hx).
  destruct (@hub_height_air_density sample_params sample_methods sample_math
              [sample_cell] [x] x Hg Hin) as ((_ & Hz & _ & _ & Hd) & _).
  exists x. split; [exact Hg |].
  assert (Hz' : z x = Fin (Rmax (-18) 0 + 100)) by (apply Hz; rewrite Hsrc; reflexivity).
  split; [exact Hz' |].
  apply Hd.
  - rewrite Hz'. f_equal. unfold Rmax. destruct (Rle_dec (-18) 0); lra.
  - lra.
Defined.

(** ** Weibull parameters *)

Section Weibull.
Context `{model_params} `{model_methods} `{py_math}.






Lemma build_cell_wind (r : raw_cell) (x : grid_cell) :
  build_cell r = Some x ->
  WindMean100 x = ((WindMean71 r + WindMean125 r) / 2)%fl
  /\ WindStd100 x = ((WindStd71 r + WindStd125 r) / 2)%fl
  /\ k x = weibull_k (WindStd100 x) (WindMean100 x)
  /\ weibull_c (WindMean100 x) (k x) = Some (c x).
Proof.
  unfold build_cell. intros Hx.
  destruct (weibull_c _ _) as [cv |] eqn:Hc; [| discriminate].
  cbn in Hx. injection Hx as <-. cbn. repeat split. exact Hc.
Qed.





End Weibull.

(** Stirling's formula is positive on the positive reals. *)
Lemma sample_math_pos (t : R) : 0 < t -> 0 < @Gamma sample_math t.
Proof.
  intros Ht. cbn. apply Rmult_lt_0_compat; [| apply exp_pos].
  apply sqrt_lt_R0. apply Rdiv_lt_0_compat; [| exact Ht].
  pose proof PI_RGT_0. lra.
Qed.




(** ** EROI *)

Section Columns.
Context `{model_params} `{model_methods} `{py_math}.

Lemma build_cell_areas (r : raw_cell) (x : grid_cell) :
  build_cell r = Some x ->
  Area x = area (Lat r)
  /\ wind_sf_onshore x = compute_sf (sf_files +:+ "wind_onshore") r
  /\ wind_area_onshore x = (Area x * wind_sf_onshore x)%fl
  /\ wind_area_offshore x = (Area x * wind_sf_offshore x)%fl.
Proof.
  unfold build_cell. intros Hx.
  destruct (weibull_c _ _); [| discriminate].
  cbn in Hx. injection Hx as <-. repeat split.
Qed.

End Columns.


Lemma fl_abs_fin_nonneg (x : R) : 0 <= x -> fl_abs (Fin x) = Fin x.
Proof. intros Hx. cbn. f_equal. apply Rabs_pos_eq, Hx. Qed.

(** A ratio of sums against the mean of the ratios. *)
Lemma ratio_of_sums_not_mean (a b c d : R) :
  0 < c -> 0 < d -> c <> d -> a / c <> b / d ->
  (a + b) / (c + d) <> (a / c + b / d) / 2.
Proof.
  intros Hc Hd Hcd Hr Heq. 
  assert (Hk : (a + b) / (c + d) - (a / c + b / d) / 2
               = (a / c - b / d) * (c - d) / (2 * (c + d))) by (field; lra).
  rewrite Heq, Rminus_diag in Hk. symmetry in Hk.
  assert (Hn : (a / c - b / d) * (c - d) = 0).
  { apply (Rmult_eq_compat_r (2 * (c + d))) in Hk.
    rewrite Rmult_0_l in Hk. rewrite <- Hk. field. lra. }
  apply Rmult_integral in Hn. destruct Hn; [apply Hr | apply Hcd]; lra.
Qed.

Lemma sample_cell_areas :
  exists (x : grid_cell) (A : R),
    @build_cell sample_params sample_methods sample_math sample_cell = Some x
    /\ 0 < A
    /\ src x = sample_cell
    /\ wind_area_onshore x = Fin (A * 0.5)
    /\ wind_area_offshore x = Fin (A * (0.5 * 0.67)).
Proof.
  destruct sample_grid as (x & Hx & _).
  exists x, (6.9e9 * cos (45 * PI / 180)).
  destruct (@build_cell_areas sample_params sample_methods sample_math _ _ Hx)
    as (Ha & Hso & Hon & Hoff).
  pose proof (@build_cell_offshore_sf sample_params sample_methods sample_math _ _ Hx)
    as Hsf.
  cbn [area sample_methods sample_cell Lat] in Ha.
  cbn [compute_sf sample_methods sample_cell land_cover hd DistCoast Elev] in Hso, Hsf.
  unfold zero_below_depth in Hsf. rewrite fl_ltb_fin in Hsf.
  cbn [maxWaterDepth_wind sample_params] in Hsf.
  rewrite bool_decide_eq_false_2 in Hsf by lra.
  rewrite coast_derating_fin in Hsf.
  replace (coast_factor 40) with 0.67 in Hsf
    by (unfold coast_factor; real_cases; lra).
  rewrite Ha, Hso in Hon. rewrite Ha, Hsf in Hoff.
  repeat split; try assumption.
  - apply sample_area_pos.
  - apply (@build_cell_src sample_params sample_methods sample_math _ _ Hx).
Qed.

Lemma sample_cell_eroi :
  exists (x : grid_cell) (on_e off_e on_in off_in : R),
    @build_cell sample_params sample_methods sample_math sample_cell = Some x
    /\ wind_area_onshore x <> wind_area_offshore x
    /\ (let e := @eroi_of_cell sample_params sample_methods x in
        wind_onshore_e e = Fin on_e /\ wind_offshore_e e = Fin off_e
        /\ wind_onshore_e_in e = Fin on_in /\ wind_offshore_e_in e = Fin off_in)
    /\ 0 < on_in /\ 0 < off_in /\ on_in <> off_in
    /\ on_e / on_in <> off_e / off_in.
Proof.
  destruct sample_cell_areas as (x & A & Hx & HA & Hsrc & Hon & Hoff).
  eexists x, _, _, _, _. split; [exact Hx |].
  split; [rewrite Hon, Hoff; intros [= Heq]; lra |].
  unfold eroi_of_cell.
  cbn [wind_onshore_e wind_offshore_e wind_onshore_e_in wind_offshore_e_in].
  rewrite Hsrc, Hon, Hoff.
  cbn [sample_cell v_r_opti n_opti DistCoast Elev].
  cbn [E_out_wind E_in_wind sample_methods].
  unfold remove_operational, onshore_inputs_gw, offshore_inputs_gw, offshore_base.
  rewrite scaling_factor_band.
  rewrite fl_abs_fin_nonneg by lra.
  cbn [remove_operational_e sample_params oe_wind_onshore oe_wind_offshore
       availFactor_onshore availFactor_offshore wind_life_time fixedOnshore
       onshoreOMKm onshoreInstallationKm fixedOffshoreFixed fixedOffshoreFloating
       offshoreFixedFoundations offshoreOMKm offshoreInstallationKm offshoreCableKm].
  cbn [fl_mul fl_add ind fl_leb fl_gtb fl_ltb].
  rewrite !fl_div_fin by lra.
  rewrite bool_decide_eq_false_2, bool_decide_eq_true_2 by lra.
  replace (foundation_band (-18)) with 1.08
    by (unfold foundation_band; real_cases; lra).
  split; [repeat split |].
  repeat split; try lra.
  match goal with
  | |- ?l <> ?r =>
      replace l
        with (11 * 0.97 * (1 - 0.035) * 25 / (13744075 + 40 * (21.3 + 605.74)))
        by (field; lra);
      replace r
        with (11 * 0.95 * (1 - 0.007) * 25
              / (26670974 + 1.08 * (16173 + 361962 + 10326 + 3477293)
                 + 40 * (6615 + 16904 + 4681)))
        by (field; lra)
  end.
  lra.
Qed.

(** ** Rooftop PV *)

(** Close a goal [n / d = q] with a known ratio [n' / d' = q] whose
    numerator and denominator are equal to [n] and [d] as polynomials. *)
Ltac same_ratio Hq :=
  match type of Hq with
  | ?n' / ?d' = _ =>
      match goal with
      | |- ?n / ?d = _ =>
          replace n with n' by ring;
          replace d with d' by (field; lra);
          exact Hq
      end
  end.

Section RooftopColumns.
Context `{model_params} `{model_methods}.

(** The factor applied to an output when the operational energy is
    removed. *)
Let op_factor : R := if remove_operational_e then 1 - oe_pv else 1.

Lemma remove_operational_fin (e : R) :
  remove_operational oe_pv (Fin e) = Fin (e * op_factor).
Proof.
  unfold remove_operational, op_factor.
  destruct remove_operational_e; cbn; f_equal; lra.
Qed.

(** The columns of a row with finite areas and a finite GHI. *)
Lemma pv_of_row_columns (r : Rooftop.ghi_row) (res com ghi : R) :
  Rooftop.Area_PV_Residential (Rooftop.areas r) = Fin res ->
  Rooftop.Area_PV_Commercial (Rooftop.areas r) = Fin com ->
  Rooftop.GHI r = Fin ghi ->
  let o := Rooftop.pv_of_row r in
  let out a sf := solar_coeff * ghi * (a * 1e6 * sf) * 1e-18 * op_factor in
  let inp a sf :=
    pv_life_time_inputs / pv_life_time * (wc_pv_panel * a * 1e6 * sf / 1e9)
    * 1e-18 in
  Rooftop.residential_e o = Fin (out res sf_residential)
  /\ Rooftop.commercial_e o = Fin (out com sf_commercial)
  /\ Rooftop.residential_e_in o = Fin (inp res sf_residential)
  /\ Rooftop.commercial_e_in o = Fin (inp com sf_commercial)
  /\ Rooftop.pv_e o = Fin (out res sf_residential + out com sf_commercial)
  /\ Rooftop.pv_e_in o = Fin (inp res sf_residential + inp com sf_commercial).
Proof.
  intros Hres Hcom Hghi o out inp. unfold o, Rooftop.pv_of_row.
  cbn [Rooftop.residential_e Rooftop.commercial_e Rooftop.residential_e_in
       Rooftop.commercial_e_in Rooftop.pv_e Rooftop.pv_e_in].
  rewrite Hres, Hcom, Hghi. unfold E_out_solar.
  cbn [fl_mul]. rewrite !remove_operational_fin, !fl_div_fin by lra.
  cbn [fl_mul fl_add]. repeat split.
Qed.

Lemma rooftop_unit_input_pos :
  0 < wc_pv_panel -> 0 < pv_life_time_inputs -> 0 < pv_life_time ->
  0 < pv_life_time_inputs / pv_life_time * (wc_pv_panel / 1e9) * 1e-18.
Proof.
  intros Hw Hi Hl.
  apply Rmult_lt_0_compat; [| lra].
  apply Rmult_lt_0_compat; [apply Rdiv_lt_0_compat; assumption | lra].
Qed.

(** An effective area cancels in the ratio of output to input. *)
Lemma rooftop_ratio (ghi area : R) :
  0 < area ->
  0 < wc_pv_panel -> 0 < pv_life_time_inputs -> 0 < pv_life_time ->
  let u := pv_life_time_inputs / pv_life_time * (wc_pv_panel / 1e9) * 1e-18 in
  0 < u * area
  /\ (solar_coeff * ghi * 1e-18 * op_factor * area) / (u * area)
     = rooftop_unit_eroi ghi.
Proof.
  intros Ha Hw Hi Hl u.
  pose proof (rooftop_unit_input_pos Hw Hi Hl) as Hu. fold u in Hu.
  split; [apply Rmult_lt_0_compat; assumption |].
  unfold rooftop_unit_eroi. fold op_factor. fold u. field. lra.
Qed.

(** C10: for a row with positive residential and commercial areas and
    a finite GHI, and positive PV constants, the residential ratio, the
    commercial ratio and the combined [pv_eroi] are one and the same
    number, the output-to-input ratio of a unit of panel area, in which
    neither area occurs. *)
Theorem rooftop_eroi_area_independent
    (r : Rooftop.ghi_row) (res com ghi : R) :
  Rooftop.Area_PV_Residential (Rooftop.areas r) = Fin res ->
  Rooftop.Area_PV_Commercial (Rooftop.areas r) = Fin com ->
  Rooftop.GHI r = Fin ghi ->
  0 < res -> 0 < com ->
  0 < sf_residential -> 0 < sf_commercial ->
  0 < wc_pv_panel -> 0 < pv_life_time_inputs -> 0 < pv_life_time ->
  let o := Rooftop.pv_of_row r in
  (Rooftop.residential_e o / Rooftop.residential_e_in o)%fl
    = Fin (rooftop_unit_eroi ghi)
  /\ (Rooftop.commercial_e o / Rooftop.commercial_e_in o)%fl
     = Fin (rooftop_unit_eroi ghi)
  /\ Rooftop.pv_eroi o = (Rooftop.pv_e o / Rooftop.pv_e_in o)%fl
  /\ Rooftop.pv_eroi o = Fin (rooftop_unit_eroi ghi).
Proof.
  intros Hres Hcom Hghi Hr Hc Hsr Hsc Hw Hi Hl o.
  destruct (pv_of_row_columns r res com ghi Hres Hcom Hghi)
    as (Ere & Ece & Eri & Eci & Ee & Ei).
  fold o in Ere, Ece, Eri, Eci, Ee, Ei.
  assert (Har : 0 < res * 1e6 * sf_residential)
    by (apply Rmult_lt_0_compat; [lra | assumption]).
  assert (Hac : 0 < com * 1e6 * sf_commercial)
    by (apply Rmult_lt_0_compat; [lra | assumption]).
  destruct (rooftop_ratio ghi _ Har Hw Hi Hl) as [Hpr Hqr].
  destruct (rooftop_ratio ghi _ Hac Hw Hi Hl) as [Hpc Hqc].
  destruct (rooftop_ratio ghi _ (Rplus_lt_0_compat _ _ Har Hac) Hw Hi Hl)
    as [Hps Hqs].
  assert (Hpv : (Rooftop.pv_e o / Rooftop.pv_e_in o)%fl
                = Fin (rooftop_unit_eroi ghi)).
  { rewrite Ee, Ei, fl_div_fin by lra. f_equal. same_ratio Hqs. }
  split; [| split; [| split]].
  - rewrite Ere, Eri, fl_div_fin by lra. f_equal. same_ratio Hqr.
  - rewrite Ece, Eci, fl_div_fin by lra. f_equal. same_ratio Hqc.
  - reflexivity.
  - exact Hpv.
Qed.

End RooftopColumns.

(** The row of France in the sample rooftop table, with a mean GHI of
    150. *)
Lemma rooftop_eroi_area_independent_witness :
  Rooftop.pv_eroi
    (@Rooftop.pv_of_row sample_params sample_methods
       (Rooftop.Build_ghi_row (Rooftop.Build_area_row 300 200) 150))
  = Fin (@rooftop_unit_eroi sample_params sample_methods 150).
Proof.
  apply (@rooftop_eroi_area_independent sample_params sample_methods
           (Rooftop.Build_ghi_row (Rooftop.Build_area_row 300 200) 150)
           300 200 150 eq_refl eq_refl eq_refl);
    cbn [sf_residential sf_commercial wc_pv_panel pv_life_time_inputs
         pv_life_time sample_params]; lra.
Defined.

(** ** The EROI columns *)

Section EroiColumns.
Context `{model_params} `{model_methods}.

Lemma eroi_of_cell_ratios (g : grid_cell) :
  let e := eroi_of_cell g in
  wind_onshore_eroi e = (wind_onshore_e e / wind_onshore_e_in e)%fl
  /\ wind_offshore_eroi e = (wind_offshore_e e / wind_offshore_e_in e)%fl
  /\ wind_eroi e
     = ((wind_onshore_e e + wind_offshore_e e)
        / (wind_onshore_e_in e + wind_offshore_e_in e))%fl
  /\ pv_eroi e = (pv_e e / pv_e_in e)%fl.
Proof. repeat split. Qed.

Lemma wind_eroi_not_mean (g : grid_cell) (on_e off_e on_in off_in : R) :
  let e := eroi_of_cell g in
  wind_onshore_e e = Fin on_e -> wind_offshore_e e = Fin off_e ->
  wind_onshore_e_in e = Fin on_in -> wind_offshore_e_in e = Fin off_in ->
  0 < on_in -> 0 < off_in -> on_in <> off_in ->
  on_e / on_in <> off_e / off_in ->
  wind_eroi e <> ((wind_onshore_eroi e + wind_offshore_eroi e) / 2)%fl.
Proof.
  intros e. unfold e. clear e. intros Ha Hb Hc Hd Hc0 Hd0 Hcd Hr.
  destruct (eroi_of_cell_ratios g) as (-> & -> & -> & _).
  rewrite Ha, Hb, Hc, Hd. cbn [fl_add].
  rewrite !fl_div_fin by lra. cbn [fl_add]. rewrite fl_div_fin by lra.
  intros [= Heq]. revert Heq. apply ratio_of_sums_not_mean; assumption.
Qed.

End EroiColumns.

(** A rooftop row with a zero GHI, as forced for Gibraltar, has an EROI
    of 0. *)
Lemma rooftop_eroi_below_one :
  exists q : R,
    Rooftop.pv_eroi
      (@Rooftop.pv_of_row sample_params sample_methods
         (Rooftop.Build_ghi_row (Rooftop.Build_area_row 0.2 0.3) 0))
    = Fin q
    /\ q < 1.
Proof.
  destruct (@pv_of_row_columns sample_params sample_methods
              (Rooftop.Build_ghi_row (Rooftop.Build_area_row 0.2 0.3) 0)
              0.2 0.3 0 eq_refl eq_refl eq_refl)
    as (_ & _ & _ & _ & Ee & Ei).
  cbn [solar_coeff sample_methods sf_residential sf_commercial wc_pv_panel
       pv_life_time_inputs pv_life_time remove_operational_e oe_pv sample_params]
    in Ee, Ei.
  change (Rooftop.pv_eroi ?o) with (Rooftop.pv_e o / Rooftop.pv_e_in o)%fl.
  rewrite Ee, Ei, fl_div_fin by lra.
  eexists; split; [reflexivity |].
  match goal with
  | |- ?n / ?d < 1 => replace n with 0 by lra
  end.
  unfold Rdiv. rewrite Rmult_0_l. lra.
Qed.

(** C8: every EROI column is the output column divided by the input
    column, nothing else being applied: the onshore, offshore and
    combined wind EROI and the PV EROI of a cell, and the rooftop PV EROI
    of a country.  The combined wind EROI is the sum of the two outputs
    over the sum of the two inputs; it differs from the arithmetic mean
    of the onshore and offshore EROI whenever the two inputs are
    positive and different and the two EROI are different, which happens
    in a cell with different onshore and offshore areas.  A rooftop EROI
    can be below 1. *)
Theorem eroi_output_over_input :
  (forall (mp : model_params) (mm : model_methods) (g : grid_cell),
     let e := eroi_of_cell g in
     wind_onshore_eroi e = (wind_onshore_e e / wind_onshore_e_in e)%fl
     /\ wind_offshore_eroi e = (wind_offshore_e e / wind_offshore_e_in e)%fl
     /\ wind_eroi e
        = ((wind_onshore_e e + wind_offshore_e e)
           / (wind_onshore_e_in e + wind_offshore_e_in e))%fl
     /\ pv_eroi e = (pv_e e / pv_e_in e)%fl)
  /\ (forall (mp : model_params) (mm : model_methods) (r : Rooftop.ghi_row),
        let o := Rooftop.pv_of_row r in
        Rooftop.pv_eroi o = (Rooftop.pv_e o / Rooftop.pv_e_in o)%fl)
  /\ (forall (mp : model_params) (mm : model_methods) (g : grid_cell)
             (on_e off_e on_in off_in : R),
        let e := eroi_of_cell g in
        wind_onshore_e e = Fin on_e -> wind_offshore_e e = Fin off_e ->
        wind_onshore_e_in e = Fin on_in -> wind_offshore_e_in e = Fin off_in ->
        0 < on_in -> 0 < off_in -> on_in <> off_in ->
        on_e / on_in <> off_e / off_in ->
        wind_eroi e <> ((wind_onshore_eroi e + wind_offshore_eroi e) / 2)%fl)
  /\ (exists (mp : model_params) (mm : model_methods) (pm : py_math)
             (r : raw_cell) (x : grid_cell),
        build_cell r = Some x
        /\ wind_area_onshore x <> wind_area_offshore x
        /\ wind_eroi (eroi_of_cell x)
           <> ((wind_onshore_eroi (eroi_of_cell x)
                + wind_offshore_eroi (eroi_of_cell x)) / 2)%fl)
  /\ (exists (mp : model_params) (mm : model_methods) (r : Rooftop.ghi_row)
             (q : R),
        Rooftop.pv_eroi (Rooftop.pv_of_row r) = Fin q /\ q < 1).
Proof.
  split; [intros; apply eroi_of_cell_ratios |].
  split; [reflexivity |].
  split; [intros mp mm g; apply wind_eroi_not_mean |].
  split.
  - destruct sample_cell_eroi
      as (x & a & b & c & d & Hx & Hne & (Ha & Hb & Hc & Hd) & Hc0 & Hd0 & Hcd & Hr).
    exists sample_params, sample_methods, sample_math, sample_cell, x.
    split; [exact Hx |]. split; [exact Hne |].
    apply (@wind_eroi_not_mean sample_params sample_methods x a b c d);
      assumption.
  - destruct rooftop_eroi_below_one as (q & Hq & Hlt).
    exists sample_params, sample_methods,
      (Rooftop.Build_ghi_row (Rooftop.Build_area_row 0.2 0.3) 0), q.
    split; [exact Hq | exact Hlt].
Qed.

(** In the cell built from the sample cell the combined wind EROI is not
    the mean of the onshore and the offshore EROI. *)
Lemma eroi_output_over_input_witness :
  exists x : grid_cell,
    @build_cell sample_params sample_methods sample_math sample_cell = Some x
    /\ wind_eroi (@eroi_of_cell sample_params sample_methods x)
       <> ((wind_onshore_eroi (@eroi_of_cell sample_params sample_methods x)
            + wind_offshore_eroi (@eroi_of_cell sample_params sample_methods x))
           / 2)%fl.
Proof.
  destruct sample_cell_eroi
    as (x & a & b & c & d & Hx & Hne & (Ha & Hb & Hc & Hd) & Hc0 & Hd0 & Hcd & Hr).
  exists x. split; [exact Hx |].
  destruct eroi_output_over_input as (_ & _ & Hmean & _).
  apply (Hmean sample_params sample_methods x a b c d); assumption.
Defined.

(** ** The GHI overrides of the rooftop table *)

Lemma loc_get_set (df : gmap string Rooftop.ghi_row) (l l' : string) (v : fl) :
  Rooftop.loc_get (Rooftop.loc_set df l v) l'
  = if decide (l = l') then Some v else Rooftop.loc_get df l'.
Proof.
  unfold Rooftop.loc_get, Rooftop.loc_set. rewrite lookup_insert.
  case_decide; reflexivity.
Qed.

Lemma loc_set_is_Some (df : gmap string Rooftop.ghi_row) (l l' : string) (v : fl) :
  is_Some (df !! l') -> is_Some (Rooftop.loc_set df l v !! l').
Proof.
  intros Hl. unfold Rooftop.loc_set. rewrite lookup_insert.
  case_decide; [eauto | exact Hl].
Qed.

Lemma loc_get_is_Some (df : gmap string Rooftop.ghi_row) (l : string) :
  is_Some (df !! l) -> is_Some (Rooftop.loc_get df l).
Proof. intros [r Hr]. unfold Rooftop.loc_get. rewrite Hr. cbn. eauto. Qed.

Lemma join_ghi_lookup (df : gmap string Rooftop.area_row)
    (mean_ghi : gmap string fl) (l : string) :
  Rooftop.join_ghi df mean_ghi !! l
  = (fun a => Rooftop.Build_ghi_row a (default NaN (mean_ghi !! l))) <$> df !! l.
Proof.
  unfold Rooftop.join_ghi. rewrite map_lookup_imap.
  destruct (df !! l); reflexivity.
Qed.

(** Resolve the comparisons of country names met when a lookup goes
    through the successive overrides. *)
Ltac through_overrides :=
  rewrite ?loc_get_set;
  repeat (case_decide; [discriminate |]);
  repeat (case_decide; [| congruence]).

Lemma ghi_overrides_result (df t : gmap string Rooftop.ghi_row) :
  Rooftop.ghi_overrides df = Some t ->
  exists m : fl,
    Rooftop.loc_get df "Malaysia" = Some m
    /\ Rooftop.loc_get t "Singapore" = Some m
    /\ Rooftop.loc_get t "Malaysia" = Some m
    /\ Rooftop.loc_get t "Netherlands Antilles" = Some (Fin 0)
    /\ Rooftop.loc_get t "Gibraltar" = Some (Fin 0).
Proof.
  unfold Rooftop.ghi_overrides.
  destruct (Rooftop.loc_get df "Malaysia") as [m |] eqn:Em; [| discriminate].
  cbn [mbind option_bind].
  destruct (Rooftop.loc_get _ "Qatar") as [q |]; [| discriminate].
  cbn [mbind option_bind].
  destruct (Rooftop.loc_get _ "China") as [c1 |]; [| discriminate].
  cbn [mbind option_bind].
  destruct (Rooftop.loc_get _ "China") as [c2 |]; [| discriminate].
  cbn [mbind option_bind].
  destruct (Rooftop.loc_get _ "Montenegro") as [k1 |]; [| discriminate].
  cbn [mbind option_bind].
  unfold Rooftop.loc_set_list.
  destruct (forallb _ _); [| discriminate].
  cbn [fold_left]. intros [= <-].
  exists m. split; [reflexivity |].
  repeat split; through_overrides; try reflexivity; exact Em.
Qed.

Lemma ghi_overrides_total (df : gmap string Rooftop.ghi_row) :
  (forall l : string,
     In l ["Malaysia"; "Qatar"; "China"; "Montenegro";
           "Netherlands Antilles"; "Gibraltar"]%string ->
     is_Some (df !! l)) ->
  is_Some (Rooftop.ghi_overrides df).
Proof.
  intros Hl. unfold Rooftop.ghi_overrides.
  destruct (loc_get_is_Some df "Malaysia") as [m ->]; [apply Hl; cbn; tauto |].
  cbn [mbind option_bind].
  destruct (loc_get_is_Some (Rooftop.loc_set df "Singapore" m) "Qatar")
    as [q ->]; [apply loc_set_is_Some, Hl; cbn; tauto |].
  cbn [mbind option_bind].
  match goal with
  | |- context [Rooftop.loc_get ?d "China"] =>
      destruct (loc_get_is_Some d "China") as [c1 ->];
        [repeat apply loc_set_is_Some; apply Hl; cbn; tauto |]
  end.
  cbn [mbind option_bind].
  match goal with
  | |- context [Rooftop.loc_get ?d "China"] =>
      destruct (loc_get_is_Some d "China") as [c2 ->];
        [repeat apply loc_set_is_Some; apply Hl; cbn; tauto |]
  end.
  cbn [mbind option_bind].
  match goal with
  | |- context [Rooftop.loc_get ?d "Montenegro"] =>
      destruct (loc_get_is_Some d "Montenegro") as [k1 ->];
        [repeat apply loc_set_is_Some; apply Hl; cbn; tauto |]
  end.
  cbn [mbind option_bind].
  unfold Rooftop.loc_set_list. cbn [forallb].
  rewrite !bool_decide_eq_true_2
    by (repeat apply loc_set_is_Some; apply Hl; cbn; tauto).
  cbn. eauto.
Qed.

Section RooftopGhi.
Context `{model_params} `{model_methods} `{py_math}.

(** C9: in the table returned by [world_rooftop_pv] the GHI of
    Singapore is the GHI that the join gave to Malaysia, which is the
    mean GHI of the cells of Malaysia (missing when the grid has none)
    and is still the GHI of the Malaysia row; the GHI of Netherlands
    Antilles and of Gibraltar is 0; none of this depends on what the
    join gave to these three rows.  The function returns a table as
    soon as the rooftop table has the rows the overrides read or
    write by list. *)
Theorem rooftop_ghi_overrides
    (rooftop_area : gmap string Rooftop.area_row) (wind_solar : list raw_cell)
    (g : list grid_cell) :
  world_grid wind_solar = Some g ->
  let ghi_of (t : gmap string Rooftop.row) (l : string) :=
    (fun o => Rooftop.GHI (Rooftop.joined o)) <$> t !! l in
  (forall out : gmap string Rooftop.row,
     Rooftop.world_rooftop_pv rooftop_area wind_solar = Some out ->
     exists m : fl,
       Rooftop.loc_get (Rooftop.join_ghi rooftop_area (mean_ghi_of g)) "Malaysia"
       = Some m
       /\ m = default NaN (mean_ghi_of g !! "Malaysia")
       /\ ghi_of out "Singapore" = Some m
       /\ ghi_of out "Malaysia" = Some m
       /\ ghi_of out "Netherlands Antilles" = Some (Fin 0)
       /\ ghi_of out "Gibraltar" = Some (Fin 0))
  /\ ((forall l : string,
         In l ["Malaysia"; "Qatar"; "China"; "Montenegro";
               "Netherlands Antilles"; "Gibraltar"]%string ->
         is_Some (rooftop_area !! l)) ->
      is_Some (Rooftop.world_rooftop_pv rooftop_area wind_solar)).
Proof.
  intros Hg ghi_of. unfold Rooftop.world_rooftop_pv. rewrite Hg.
  cbn [mbind option_bind]. split.
  - intros out Hout.
    destruct (Rooftop.ghi_overrides _) as [t |] eqn:Ht; [| discriminate].
    cbn in Hout. injection Hout as <-.
    destruct (ghi_overrides_result _ t Ht) as (m & Hm & Hs & Hy & Hn & Hb).
    exists m. split; [exact Hm |]. split.
    { revert Hm. unfold Rooftop.loc_get. rewrite join_ghi_lookup.
      destruct (rooftop_area !! "Malaysia"); cbn; congruence. }
    assert (Hget : forall l, ghi_of (Rooftop.pv_of_row <$> t) l = Rooftop.loc_get t l).
    { intros l. unfold ghi_of, Rooftop.loc_get. rewrite lookup_fmap.
      destruct (t !! l); reflexivity. }
    rewrite !Hget. repeat split; assumption.
  - intros Hl.
    destruct (ghi_overrides_total
                (Rooftop.join_ghi rooftop_area (mean_ghi_of g))) as [t ->].
    + intros l Hin. rewrite join_ghi_lookup.
      destruct (Hl l Hin) as [a ->]. cbn. eauto.
    + cbn. eauto.
Qed.

End RooftopGhi.

(** The grid built from the sample table has a cell for each of its
    three rows, and the mean GHI of its two cells of Malaysia is 200. *)
Lemma sample_table_grid :
  exists g : list grid_cell,
    @world_grid sample_params sample_methods sample_math sample_wind_solar
    = Some g
    /\ mean_ghi_of g !! "Malaysia"%string = Some (Fin 200).
Proof.
  destruct (sample_grid_returns sample_wind_solar) as [g Hg]; [incl_sample_cells |].
  exists g. split; [exact Hg |].
  assert (Hd : @discard_cells sample_params sample_wind_solar = sample_wind_solar).
  { unfold discard_cells, sample_wind_solar. cbn. real_cases. reflexivity. }
  unfold world_grid in Hg. rewrite Hd in Hg. apply mapM_Some in Hg.
  unfold sample_wind_solar in Hg.
  apply Forall2_cons_inv_l in Hg as (y1 & g1 & H1 & Hg & ->).
  apply Forall2_cons_inv_l in Hg as (x & g2 & H2 & Hg & ->).
  apply Forall2_cons_inv_l in Hg as (y2 & g3 & H3 & Hg & ->).
  apply Forall2_nil_inv_l in Hg as ->.
  apply (@build_cell_src sample_params sample_methods sample_math) in H1, H2, H3.
  unfold mean_ghi_of, groupby_Country_GHI. cbn [fold_left].
  rewrite H1, H2, H3. cbn [Country GHI malaysia_cell sample_cell].
  rewrite lookup_fmap, lookup_insert_eq.
  rewrite lookup_insert_ne by discriminate.
  rewrite lookup_insert_eq, lookup_empty.
  cbn [default app fmap option_fmap option_map].
  f_equal. unfold series_mean.
  cbn [Datatypes.id app List.filter isnull negb fold_left length fl_add INR].
  rewrite fl_div_fin by lra. f_equal. lra.
Qed.

(** The sample rooftop table joined with the grid of the sample table:
    Singapore receives 200, the mean GHI of the cells of Malaysia. *)
Lemma rooftop_ghi_overrides_witness :
  exists out : gmap string Rooftop.row,
    @Rooftop.world_rooftop_pv sample_params sample_methods sample_math
      sample_rooftop sample_wind_solar = Some out
    /\ (fun o => Rooftop.GHI (Rooftop.joined o)) <$> out !! "Singapore"
       = Some (Fin 200)
    /\ (fun o => Rooftop.GHI (Rooftop.joined o)) <$> out !! "Malaysia"
       = Some (Fin 200)
    /\ (fun o => Rooftop.GHI (Rooftop.joined o)) <$> out !! "Gibraltar"
       = Some (Fin 0).
Proof.
  destruct sample_table_grid as (g & Hg & Hmean).
  destruct (@rooftop_ghi_overrides sample_params sample_methods sample_math
              sample_rooftop sample_wind_solar g Hg) as [Hres Htot].
  destruct Htot as [out Hout].
  { intros l Hin. cbn in Hin.
    destruct Hin as [<- | [<- | [<- | [<- | [<- | [<- | []]]]]]];
      eexists; vm_compute; reflexivity. }
  destruct (Hres out Hout) as (m & _ & Hm & Hs & Hy & _ & Hb).
  rewrite Hmean in Hm. cbn in Hm. subst m.
  exists out. repeat split; assumption.
Defined.

(* ================================================================== *)
(** * Part III: further properties of the code                         *)
(* ================================================================== *)

(** ** The selections of [world_grid] *)

Section GridRows.
Context `{model_params} `{model_methods} `{py_math}.

Lemma world_grid_src (df : list raw_cell) (g : list grid_cell) :
  world_grid df = Some g -> List.map src g = discard_cells df.
Proof.
  unfold world_grid. intros Hg%mapM_Some.
  induction Hg as [| r y l l' Hr _ IH]; [reflexivity |].
  cbn. rewrite IH, (build_cell_src r y Hr). reflexivity.
Qed.

Lemma fl_geb_not_ltb (a b : fl) : (a >=? b)%fl = true -> (a <? b)%fl = false.
Proof.
  destruct a as [x | | |], b as [y | | |]; cbn; try congruence.
  intros Hle%bool_decide_eq_true. apply bool_decide_eq_false. lra.
Qed.

(** X3: the reset of [wind_sf_offshore] below the maximal water depth
    never changes a value: no cell of the built grid lies below that
    depth, so that the offshore suitability of a cell is the resolved
    suitability after the derating by distance alone. *)
Theorem depth_reset_is_idle
    (df : list raw_cell) (g : list grid_cell) (x : grid_cell) :
  world_grid df = Some g -> In x g ->
  (Elev (src x) <? maxWaterDepth_wind)%fl = false
  /\ zero_below_depth (Elev (src x))
       (compute_sf (sf_files +:+ "wind_offshore") (src x))
     = compute_sf (sf_files +:+ "wind_offshore") (src x)
  /\ wind_sf_offshore x
     = coast_derating (DistCoast (src x))
         (compute_sf (sf_files +:+ "wind_offshore") (src x)).
Proof.
  intros Hg Hx.
  destruct (world_grid_cell df g x Hg Hx) as (r & Hr & Hb).
  rewrite (build_cell_src r x Hb).
  apply discard_cells_filter in Hr as (_ & _ & _ & _ & He & _).
  pose proof (fl_geb_not_ltb _ _ He) as Hlt.
  assert (Hz : zero_below_depth (Elev r)
                 (compute_sf (sf_files +:+ "wind_offshore") r)
               = compute_sf (sf_files +:+ "wind_offshore") r)
    by (unfold zero_below_depth; rewrite Hlt; reflexivity).
  split; [exact Hlt |]. split; [exact Hz |].
  rewrite (build_cell_offshore_sf r x Hb), Hz. reflexivity.
Qed.

End GridRows.

(** In the grid of the sample cell the offshore suitability is the
    derated resolved suitability. *)
Lemma depth_reset_is_idle_witness :
  exists x : grid_cell,
    @world_grid sample_params sample_methods sample_math [sample_cell] = Some [x]
    /\ wind_sf_offshore x
       = coast_derating (DistCoast (src x))
           (@compute_sf sample_methods (sf_files +:+ "wind_offshore") (src x)).
Proof.
  destruct sample_grid as (x & Hx & Hg).
  exists x. split; [exact Hg |].
  apply (@depth_reset_is_idle sample_params sample_methods sample_math
           [sample_cell] [x] x Hg).
  left. reflexivity.
Defined.

(** ** The derating by distance to the coast *)

(** X4: for a positive suitability the derating is skipped exactly when
    the distance to the coast is missing: every other distance, the two
    infinities included, falls in one band, and the derated value lies
    between a tenth of the suitability and 0.67 times it. *)
Theorem coast_derating_skipped_iff_missing (dist : fl) (s : R) :
  0 < s ->
  (coast_derating dist (Fin s) = Fin s <-> dist = NaN)
  /\ (dist <> NaN ->
      exists v : R,
        coast_derating dist (Fin s) = Fin v /\ 0.1 * s <= v <= 0.67 * s).
Proof.
  intros Hs. destruct dist as [d | | |].
  - rewrite coast_derating_fin. pose proof (coast_factor_unit d) as Hu.
    assert (Hf : 0.1 <= coast_factor d <= 0.67)
      by (unfold coast_factor; real_cases; lra).
    split.
    + split; [| discriminate]. intros [= Heq]. exfalso. nra.
    + intros _. eexists. split; [reflexivity |]. nra.
  - unfold coast_derating. cbn. split.
    + split; [| discriminate]. intros [= Heq]. exfalso. lra.
    + intros _. eexists. split; [reflexivity |]. lra.
  - unfold coast_derating. cbn. split.
    + split; [| discriminate]. intros [= Heq]. exfalso. lra.
    + intros _. eexists. split; [reflexivity |]. lra.
  - unfold coast_derating. cbn. split; [tauto |]. congruence.
Qed.

(** A suitability of 0.5 with a missing distance, and 40 km from the
    coast. *)
Lemma coast_derating_skipped_iff_missing_witness :
  coast_derating NaN (Fin 0.5) = Fin 0.5
  /\ exists v : R, coast_derating (Fin 40) (Fin 0.5) = Fin v /\ v <= 0.67 * 0.5.
Proof.
  destruct (coast_derating_skipped_iff_missing NaN 0.5 ltac:(lra)) as [Hn _].
  destruct (coast_derating_skipped_iff_missing (Fin 40) 0.5 ltac:(lra))
    as [_ Hb].
  split; [apply Hn; reflexivity |].
  destruct (Hb ltac:(discriminate)) as (v & Hv & Hle).
  exists v. split; [exact Hv | lra].
Defined.

(** ** Air density over the grid *)

Lemma barometric_density_pos (h : R) :
  h < 288.15 / 0.0065 -> 0 < barometric_density h.
Proof.
  intros Hh. unfold barometric_density.
  apply Rdiv_lt_0_compat; [| lra].
  apply Rmult_lt_0_compat; [lra | apply exp_pos].
Qed.

Section GridAir.
Context `{model_params} `{model_methods} `{py_math}.

(** X5: every cell at or below sea level has a hub height of exactly
    100 m, so that all these cells, whatever their depth, have one and
    the same pressure and air density. *)
Theorem sea_cells_share_air_density
    (r r' : raw_cell) (x x' : grid_cell) (elev elev' : R) :
  build_cell r = Some x -> build_cell r' = Some x' ->
  Elev r = Fin elev -> Elev r' = Fin elev' ->
  elev <= 0 -> elev' <= 0 ->
  z x = Fin 100
  /\ P x = P x'
  /\ air_density x = air_density x'
  /\ air_density x = Fin (barometric_density 100).
Proof.
  intros Hx Hx' He He' Hneg Hneg'.
  destruct (build_cell_density r x Hx) as (Hz & HP & Hd).
  destruct (build_cell_density r' x' Hx') as (Hz' & HP' & Hd').
  assert (Ez : forall e, e <= 0 -> hub_height (Fin e) = Fin 100).
  { intros e Hle. rewrite hub_height_fin. f_equal. unfold Rmax.
    destruct (Rle_dec e 0); lra. }
  rewrite He, Ez in Hz by assumption. rewrite He', Ez in Hz' by assumption.
  rewrite Hz in HP. rewrite Hz' in HP'.
  split; [exact Hz |]. split; [congruence |]. split; [congruence |].
  rewrite Hd, HP. apply density_closed_form. lra.
Qed.

(** X6: in every cell of the built grid whose elevation is a number
    below [288.15 / 0.0065 - 100] the air density is a positive number,
    at most the density at 100 m and below the density at sea level. *)
Theorem air_density_bounds
    (df : list raw_cell) (g : list grid_cell) (x : grid_cell) (elev : R) :
  world_grid df = Some g -> In x g ->
  Elev (src x) = Fin elev ->
  elev < 288.15 / 0.0065 - 100 ->
  exists rho : R,
    air_density x = Fin rho
    /\ 0 < rho
    /\ rho <= barometric_density 100
    /\ rho < 101325 / (287.05 * 288.15).
Proof.
  intros Hg Hx He Hrange.
  destruct (world_grid_cell df g x Hg Hx) as (r & _ & Hb).
  rewrite (build_cell_src r x Hb) in He.
  destruct (build_cell_density r x Hb) as (Hz & HP & Hd).
  rewrite He, hub_height_fin in Hz.
  assert (Hh : 100 <= Rmax elev 0 + 100 < 288.15 / 0.0065)
    by (unfold Rmax; destruct (Rle_dec elev 0); lra).
  exists (barometric_density (Rmax elev 0 + 100)).
  split; [rewrite Hd, HP, Hz; apply density_closed_form; lra |].
  split; [apply barometric_density_pos; lra |].
  assert (Hle : barometric_density (Rmax elev 0 + 100) <= barometric_density 100).
  { destruct (Req_dec (Rmax elev 0 + 100) 100) as [-> | Hne]; [lra |].
    left. apply barometric_density_decreasing; lra. }
  split; [exact Hle |].
  rewrite <- barometric_density_sea_level.
  apply Rle_lt_trans with (1 := Hle).
  apply barometric_density_decreasing; lra.
Qed.

End GridAir.

(** The sample cell, 18 m deep, and a cell 300 m deep. *)
Lemma sea_cells_share_air_density_witness :
  exists x x' : grid_cell,
    @build_cell sample_params sample_methods sample_math sample_cell = Some x
    /\ @build_cell sample_params sample_methods sample_math deep_cell = Some x'
    /\ air_density x = air_density x'
    /\ air_density x = Fin (barometric_density 100).
Proof.
  destruct sample_grid as (x & Hx & _).
  destruct (sample_cells_return deep_cell) as [x' Hx']; [in_sample_cells |].
  exists x, x'. split; [exact Hx |]. split; [exact Hx' |].
  destruct (@sea_cells_share_air_density sample_params sample_methods sample_math
              sample_cell deep_cell x x' (-18) (-300) Hx Hx' eq_refl eq_refl
              ltac:(lra) ltac:(lra)) as (_ & _ & Hd & Hv).
  split; [exact Hd | exact Hv].
Defined.

(** The air density of the cell built from the sample cell. *)
Lemma air_density_bounds_witness :
  exists (x : grid_cell) (rho : R),
    @world_grid sample_params sample_methods sample_math [sample_cell] = Some [x]
    /\ air_density x = Fin rho
    /\ 0 < rho < 101325 / (287.05 * 288.15).
Proof.
  destruct sample_grid as (x & Hx & Hg).
  assert (Hsrc := @build_cell_src sample_params sample_methods sample_math _ _ Hx).
  destruct (@air_density_bounds sample_params sample_methods sample_math
              [sample_cell] [x] x (-18) Hg) as (rho & Hr & Hpos & _ & Hlt).
  - left. reflexivity.
  - rewrite Hsrc. reflexivity.
  - lra.
  - exists x, rho. split; [exact Hg |]. split; [exact Hr | lra].
Defined.

(** ** The Weibull shape and scale *)

Lemma Rpower_neg_decreasing (a b y : R) :
  0 < y -> 0 < a < b -> Rpower b (- y) < Rpower a (- y).
Proof.
  intros Hy Hab. rewrite !Rpower_Ropp.
  apply Rinv_lt_contravar.
  - apply Rmult_lt_0_compat; apply exp_pos.
  - apply Rlt_Rpower_l; assumption.
Qed.

(** X7: the Weibull shape depends on the mean and the deviation through
    their ratio only: multiplying both by the same non-zero number, as a
    change of unit does, leaves it unchanged, a zero mean included.  For
    a positive mean the shape is 1 when the deviation equals the mean and
    strictly decreases when the deviation grows. *)
Theorem weibull_k_ratio_only (s m a : R) :
  a <> 0 ->
  weibull_k (Fin (a * s)) (Fin (a * m)) = weibull_k (Fin s) (Fin m)
  /\ (0 < m -> weibull_k (Fin m) (Fin m) = Fin 1)
  /\ (forall s' : R, 0 < m -> 0 < s -> s < s' ->
        exists kv kv' : R,
          weibull_k (Fin s) (Fin m) = Fin kv
          /\ weibull_k (Fin s') (Fin m) = Fin kv' /\ kv' < kv).
Proof.
  intros Ha. split; [| split].
  - unfold weibull_k. destruct (Req_dec m 0) as [-> | Hm].
    + unfold fl_div. rewrite Rmult_0_r.
      destruct (decide (0 = 0)) as [_ | Hn]; [| lra].
      destruct (Rtotal_order s 0) as [Hs | [-> | Hs]].
      * destruct (Rtotal_order a 0) as [Ha' | [-> | Ha']]; [| lra |].
        -- assert (0 < a * s) by nra. real_cases. reflexivity.
        -- assert (a * s < 0) by nra. real_cases. reflexivity.
      * rewrite Rmult_0_r. real_cases. reflexivity.
      * destruct (Rtotal_order a 0) as [Ha' | [-> | Ha']]; [| lra |].
        -- assert (a * s < 0) by nra. real_cases. reflexivity.
        -- assert (0 < a * s) by nra. real_cases. reflexivity.
    + rewrite !fl_div_fin by (try apply Rmult_integral_contrapositive; tauto).
      f_equal. f_equal. field. tauto.
  - intros Hm. rewrite weibull_k_pos by assumption. f_equal.
    replace (m / m) with 1 by (field; lra).
    unfold Rpower. rewrite ln_1, Rmult_0_r. apply exp_0.
  - intros s' Hm Hs Hlt. rewrite !weibull_k_pos by lra.
    eexists _, _. split; [reflexivity |]. split; [reflexivity |].
    replace (-1.086) with (Ropp 1.086) by lra.
    apply Rpower_neg_decreasing; [lra |]. split.
    + apply Rdiv_lt_0_compat; assumption.
    + apply Rmult_lt_compat_r; [apply Rinv_0_lt_compat |]; assumption.
Qed.

(** Wind speeds given in km/h instead of m/s. *)
Lemma weibull_k_ratio_only_witness :
  weibull_k (Fin (3.6 * 3.5)) (Fin (3.6 * 8)) = weibull_k (Fin 3.5) (Fin 8).
Proof.
  apply (weibull_k_ratio_only 3.5 8 3.6). lra.
Defined.

Section WeibullEdge.
Context `{model_params} `{model_methods} `{py_math}.

(** X8: a cell with a positive mean wind speed and a zero deviation has
    the shape [k = +inf]; [math.gamma] is then called at 1 and the scale
    is the mean divided by [Gamma(1)], a number. *)
Theorem weibull_zero_deviation (r : raw_cell) (x : grid_cell) (m : R) :
  build_cell r = Some x ->
  WindMean100 x = Fin m -> 0 < m ->
  WindStd100 x = Fin 0 ->
  Gamma 1 <> 0 ->
  k x = PInf /\ c x = Fin (m / Gamma 1).
Proof.
  intros Hx Em Hm Es HG.
  destruct (build_cell_wind r x Hx) as (_ & _ & Hk & Hc).
  assert (Ek : k x = PInf).
  { rewrite Hk, Em, Es. unfold weibull_k. rewrite fl_div_fin by lra.
    replace (0 / m) with 0 by (field; lra). cbn. real_cases. reflexivity. }
  split; [exact Ek |].
  rewrite Em, Ek in Hc. unfold weibull_c in Hc.
  change (1 + 1 / PInf)%fl with (Fin (1 + 0)) in Hc.
  destruct (math_gamma _) as [g |] eqn:Eg; [| discriminate].
  apply math_gamma_Some in Eg as [-> _]. cbn [mbind option_bind] in Hc.
  replace (1 + 0) with 1 in Hc by lra.
  rewrite fl_div_fin in Hc by exact HG. congruence.
Qed.

End WeibullEdge.

(** The barren cell has a steady wind of 5.5 m/s. *)
Lemma weibull_zero_deviation_witness :
  exists x : grid_cell,
    @build_cell sample_params sample_methods sample_math barren_cell = Some x
    /\ k x = PInf
    /\ c x = Fin (5.5 / @Gamma sample_math 1).
Proof.
  destruct (sample_cells_return barren_cell) as [x Hx]; [in_sample_cells |].
  destruct (@build_cell_wind sample_params sample_methods sample_math _ _ Hx)
    as (Hm & Hs & _).
  exists x. split; [exact Hx |].
  apply (@weibull_zero_deviation sample_params sample_methods sample_math
           barren_cell x 5.5 Hx).
  - rewrite Hm. cbn [barren_cell WindMean71 WindMean125].
    rewrite half_sum_fin. f_equal. lra.
  - lra.
  - rewrite Hs. cbn [barren_cell WindStd71 WindStd125].
    rewrite half_sum_fin. f_equal. lra.
  - pose proof (sample_math_pos 1 ltac:(lra)). lra.
Defined.

(** ** The inputs per GW *)

Section InputsPerGW.
Context `{model_params}.

Lemma onshore_inputs_fin (d : R) :
  onshore_inputs_gw (Fin d)
  = Fin (fixedOnshore + Rabs d * (onshoreOMKm + onshoreInstallationKm)).
Proof. reflexivity. Qed.

Lemma offshore_inputs_fin (elev d : R) :
  offshore_inputs_gw (Fin elev) (Fin d)
  = Fin ((if decide (-40 < elev) then fixedOffshoreFloating else fixedOffshoreFixed)
         + foundation_band elev * offshoreFixedFoundations
         + Rabs d * (offshoreOMKm + offshoreInstallationKm + offshoreCableKm)).
Proof.
  unfold offshore_inputs_gw. rewrite scaling_factor_band.
  unfold offshore_base. cbn. real_cases; f_equal; lra.
Qed.

(** X9: the inputs per GW depend on the distance to the coast through
    its absolute value only: a distance and its opposite give the same
    onshore and the same offshore inputs; with non-negative costs per km
    the inputs do not decrease when the absolute distance grows, and
    the onshore inputs are at least [fixedOnshore]. *)
Theorem inputs_by_absolute_distance (elev d d' : R) :
  0 <= onshoreOMKm + onshoreInstallationKm ->
  0 <= offshoreOMKm + offshoreInstallationKm + offshoreCableKm ->
  onshore_inputs_gw (Fin (- d)) = onshore_inputs_gw (Fin d)
  /\ offshore_inputs_gw (Fin elev) (Fin (- d)) = offshore_inputs_gw (Fin elev) (Fin d)
  /\ (Rabs d <= Rabs d' ->
      (onshore_inputs_gw (Fin d) <=? onshore_inputs_gw (Fin d'))%fl = true
      /\ (offshore_inputs_gw (Fin elev) (Fin d)
          <=? offshore_inputs_gw (Fin elev) (Fin d'))%fl = true)
  /\ (Fin fixedOnshore <=? onshore_inputs_gw (Fin d))%fl = true.
Proof.
  intros Hon Hoff.
  rewrite !onshore_inputs_fin, !offshore_inputs_fin, !Rabs_Ropp.
  pose proof (Rabs_pos d) as Hd.
  split; [reflexivity |]. split; [reflexivity |]. split.
  - intros Hle. rewrite !fl_leb_fin.
    split; apply bool_decide_eq_true; nra.
  - rewrite fl_leb_fin. apply bool_decide_eq_true. nra.
Qed.

(** X10: within the fixed-foundation regime the scaling factor does not
    decrease with the depth: of two elevations above -40 the lower one
    has the larger or equal factor, and every factor lies between 1 and
    2.19; at -40 and below the factor is 0. *)
Theorem scaling_factor_grows_with_depth (deep shallow : R) :
  -40 < deep -> deep <= shallow ->
  (exists f f' : R,
     scaling_factor_fixed_foundations (Fin deep) = Fin f
     /\ scaling_factor_fixed_foundations (Fin shallow) = Fin f'
     /\ 1 <= f' /\ f' <= f /\ f <= 2.19)
  /\ (forall elev : R, elev <= -40 ->
        scaling_factor_fixed_foundations (Fin elev) = Fin 0).
Proof.
  intros Hd Hle. split.
  - exists (foundation_band deep), (foundation_band shallow).
    rewrite !scaling_factor_band. split; [reflexivity |]. split; [reflexivity |].
    unfold foundation_band. real_cases; lra.
  - intros elev He. rewrite scaling_factor_band. f_equal.
    unfold foundation_band. real_cases; lra.
Qed.

End InputsPerGW.

(** 40 km off the coast and 40 km inland, with the sample costs. *)
Lemma inputs_by_absolute_distance_witness :
  @onshore_inputs_gw sample_params (Fin (- 40))
  = @onshore_inputs_gw sample_params (Fin 40)
  /\ @offshore_inputs_gw sample_params (Fin (-18)) (Fin (- 40))
     = @offshore_inputs_gw sample_params (Fin (-18)) (Fin 40).
Proof.
  destruct (@inputs_by_absolute_distance sample_params (-18) 40 40)
    as (Hon & Hoff & _).
  - cbn [onshoreOMKm onshoreInstallationKm sample_params]. lra.
  - cbn [offshoreOMKm offshoreInstallationKm offshoreCableKm sample_params]. lra.
  - split; [exact Hon | exact Hoff].
Defined.

(** Depths of 36 m and 18 m. *)
Lemma scaling_factor_grows_with_depth_witness :
  exists f f' : R,
    scaling_factor_fixed_foundations (Fin (-36)) = Fin f
    /\ scaling_factor_fixed_foundations (Fin (-18)) = Fin f'
    /\ f' <= f.
Proof.
  destruct (@scaling_factor_grows_with_depth (-36) (-18) ltac:(lra) ltac:(lra))
    as [(f & f' & Hf & Hf' & _ & Hle & _) _].
  exists f, f'. split; [exact Hf |]. split; [exact Hf' | exact Hle].
Defined.

(** ** EROI of a cell *)

(** A ratio of sums lies between the two ratios. *)
Lemma ratio_of_sums_between (a b c d : R) :
  0 < c -> 0 < d ->
  Rmin (a / c) (b / d) <= (a + b) / (c + d) <= Rmax (a / c) (b / d).
Proof.
  intros Hc Hd.
  assert (Hs : 0 < c + d) by lra.
  assert (E : (a + b) / (c + d)
              = a / c * (c / (c + d)) + b / d * (d / (c + d))) by (field; lra).
  assert (Hw : c / (c + d) + d / (c + d) = 1) by (field; lra).
  assert (Hwc : 0 < c / (c + d)) by (apply Rdiv_lt_0_compat; lra).
  assert (Hwd : 0 < d / (c + d)) by (apply Rdiv_lt_0_compat; lra).
  rewrite E. set (p := a / c). set (q := b / d).
  set (u := c / (c + d)) in *. set (v := d / (c + d)) in *.
  unfold Rmin, Rmax. destruct (Rle_dec p q); split; nra.
Qed.

Lemma fl_div_by_zero (a : fl) : ~ finite (a / Fin 0)%fl.
Proof.
  intros [v Hv]. destruct a as [x | | |]; cbn in Hv; revert Hv;
    real_cases; discriminate.
Qed.

Section CellEroi.
Context `{model_params} `{model_methods}.

(** X11: when the onshore and the offshore outputs are numbers and the
    two inputs are positive numbers, the combined wind EROI of a cell is
    a number between its onshore and its offshore EROI. *)
Theorem wind_eroi_between (g : grid_cell) (on_e off_e on_in off_in : R) :
  wind_onshore_e (eroi_of_cell g) = Fin on_e ->
  wind_offshore_e (eroi_of_cell g) = Fin off_e ->
  wind_onshore_e_in (eroi_of_cell g) = Fin on_in ->
  wind_offshore_e_in (eroi_of_cell g) = Fin off_in ->
  0 < on_in -> 0 < off_in ->
  exists r r_on r_off : R,
    wind_eroi (eroi_of_cell g) = Fin r
    /\ wind_onshore_eroi (eroi_of_cell g) = Fin r_on
    /\ wind_offshore_eroi (eroi_of_cell g) = Fin r_off
    /\ Rmin r_on r_off <= r <= Rmax r_on r_off.
Proof.
  intros Ha Hb Hc Hd Hc0 Hd0.
  destruct (eroi_of_cell_ratios g) as (-> & -> & -> & _).
  rewrite Ha, Hb, Hc, Hd. cbn [fl_add]. rewrite !fl_div_fin by lra.
  eexists _, _, _. repeat split. all: apply ratio_of_sums_between; assumption.
Qed.

(** X12: a cell without suitable PV area has a zero PV input, and its
    PV EROI, a division by zero, is an infinity or NaN and no number. *)
Theorem zero_pv_area_no_eroi (g : grid_cell) (a : R) :
  pv_area g = Fin a -> a = 0 ->
  pv_e_in (eroi_of_cell g) = Fin 0
  /\ ~ finite (pv_eroi (eroi_of_cell g)).
Proof.
  intros Ha ->.
  assert (Hin : pv_e_in (eroi_of_cell g) = Fin 0).
  { unfold eroi_of_cell. cbn [pv_e_in]. rewrite Ha. cbn [fl_mul].
    rewrite fl_div_fin by lra. cbn [fl_mul]. f_equal.
    unfold Rdiv. ring. }
  split; [exact Hin |].
  destruct (eroi_of_cell_ratios g) as (_ & _ & _ & ->).
  rewrite Hin. apply fl_div_by_zero.
Qed.

End CellEroi.

(** The cell built from the sample cell: the combined EROI lies between
    the onshore and the offshore EROI. *)
Lemma wind_eroi_between_witness :
  exists (x : grid_cell) (r r_on r_off : R),
    @build_cell sample_params sample_methods sample_math sample_cell = Some x
    /\ wind_eroi (@eroi_of_cell sample_params sample_methods x) = Fin r
    /\ wind_onshore_eroi (@eroi_of_cell sample_params sample_methods x) = Fin r_on
    /\ wind_offshore_eroi (@eroi_of_cell sample_params sample_methods x) = Fin r_off
    /\ Rmin r_on r_off <= r <= Rmax r_on r_off.
Proof.
  destruct sample_cell_eroi
    as (x & a & b & c & d & Hx & _ & (Ha & Hb & Hc & Hd) & Hc0 & Hd0 & _).
  destruct (@wind_eroi_between sample_params sample_methods x a b c d
              Ha Hb Hc Hd Hc0 Hd0) as (r & r1 & r2 & Hr & Hr1 & Hr2 & Hbt).
  exists x, r, r1, r2. repeat split; try assumption; apply Hbt.
Defined.

Lemma build_cell_pv_area `{model_params} `{model_methods} `{py_math}
    (r : raw_cell) (x : grid_cell) :
  build_cell r = Some x ->
  pv_area x
  = (area (Lat r)
     * (compute_sf (sf_files +:+ "pv") r
        * compute_sf (sf_files +:+ "slope_pv") r))%fl.
Proof.
  unfold build_cell. intros Hx.
  destruct (weibull_c _ _); [| discriminate].
  cbn in Hx. injection Hx as <-. reflexivity.
Qed.

(** The barren cell has no suitable PV area. *)
Lemma zero_pv_area_no_eroi_witness :
  exists x : grid_cell,
    @build_cell sample_params sample_methods sample_math barren_cell = Some x
    /\ pv_e_in (@eroi_of_cell sample_params sample_methods x) = Fin 0
    /\ ~ finite (pv_eroi (@eroi_of_cell sample_params sample_methods x)).
Proof.
  destruct (sample_cells_return barren_cell) as [x Hx]; [in_sample_cells |].
  exists x. split; [exact Hx |].
  apply (@zero_pv_area_no_eroi sample_params sample_methods x
           (6.9e9 * cos (45 * PI / 180) * (0 * 0))).
  - rewrite (@build_cell_pv_area sample_params sample_methods sample_math _ _ Hx).
    reflexivity.
  - ring.
Defined.

(** ** The operational energy *)

Lemma remove_operational_flag (mp : model_params) (oe e : R) :
  @remove_operational (with_remove_operational true mp) oe (Fin e)
  = Fin (e * (1 - oe))
  /\ @remove_operational (with_remove_operational false mp) oe (Fin e) = Fin e.
Proof. split; reflexivity. Qed.

(** X13: switching [remove_operational_e] on leaves every energy input
    of a cell unchanged and multiplies each output, and with it each
    EROI that is a number, by one minus the operational fraction of its
    technology: onshore wind, offshore wind and PV. *)
Theorem operational_energy_scales_eroi
    (mp : model_params) (mm : model_methods) (g : grid_cell) :
  let off := @eroi_of_cell (with_remove_operational false mp) mm g in
  let on := @eroi_of_cell (with_remove_operational true mp) mm g in
  (wind_onshore_e_in on = wind_onshore_e_in off
   /\ wind_offshore_e_in on = wind_offshore_e_in off
   /\ pv_e_in on = pv_e_in off)
  /\ (forall e e_in : R,
        wind_onshore_e off = Fin e -> wind_onshore_e_in off = Fin e_in ->
        e_in <> 0 ->
        wind_onshore_e on = Fin (e * (1 - @oe_wind_onshore mp))
        /\ wind_onshore_eroi off = Fin (e / e_in)
        /\ wind_onshore_eroi on = Fin (e / e_in * (1 - @oe_wind_onshore mp)))
  /\ (forall e e_in : R,
        wind_offshore_e off = Fin e -> wind_offshore_e_in off = Fin e_in ->
        e_in <> 0 ->
        wind_offshore_e on = Fin (e * (1 - @oe_wind_offshore mp))
        /\ wind_offshore_eroi off = Fin (e / e_in)
        /\ wind_offshore_eroi on = Fin (e / e_in * (1 - @oe_wind_offshore mp)))
  /\ (forall e e_in : R,
        pv_e off = Fin e -> pv_e_in off = Fin e_in ->
        e_in <> 0 ->
        pv_e on = Fin (e * (1 - @oe_pv mp))
        /\ pv_eroi off = Fin (e / e_in)
        /\ pv_eroi on = Fin (e / e_in * (1 - @oe_pv mp))).
Proof.
  intros off on. split; [repeat split |].
  assert (Hdiv : forall e e_in f : R, e_in <> 0 ->
            (Fin (e * f) / Fin e_in)%fl = Fin (e / e_in * f)).
  { intros e e_in f Hn. rewrite fl_div_fin by exact Hn. f_equal. field. exact Hn. }
  split; [| split]; intros e e_in He Hin Hn.
  - assert (Hon : wind_onshore_e on = Fin (e * (1 - @oe_wind_onshore mp))).
    { unfold on, off, eroi_of_cell in *. cbn [wind_onshore_e] in *.
      unfold remove_operational in *.
      cbn [remove_operational_e with_remove_operational] in *.
      cbn [oe_wind_onshore availFactor_onshore with_remove_operational] in *.
      rewrite He. reflexivity. }
    split; [exact Hon |].
    change (wind_onshore_eroi off) with (wind_onshore_e off / wind_onshore_e_in off)%fl.
    change (wind_onshore_eroi on) with (wind_onshore_e on / wind_onshore_e_in off)%fl.
    rewrite Hon, He, Hin. split; [apply fl_div_fin, Hn | apply Hdiv, Hn].
  - assert (Hon : wind_offshore_e on = Fin (e * (1 - @oe_wind_offshore mp))).
    { unfold on, off, eroi_of_cell in *. cbn [wind_offshore_e] in *.
      unfold remove_operational in *.
      cbn [remove_operational_e with_remove_operational] in *.
      cbn [oe_wind_offshore availFactor_offshore with_remove_operational] in *.
      rewrite He. reflexivity. }
    split; [exact Hon |].
    change (wind_offshore_eroi off)
      with (wind_offshore_e off / wind_offshore_e_in off)%fl.
    change (wind_offshore_eroi on)
      with (wind_offshore_e on / wind_offshore_e_in off)%fl.
    rewrite Hon, He, Hin. split; [apply fl_div_fin, Hn | apply Hdiv, Hn].
  - assert (Hon : pv_e on = Fin (e * (1 - @oe_pv mp))).
    { unfold on, off, eroi_of_cell in *. cbn [pv_e] in *.
      unfold remove_operational in *.
      cbn [remove_operational_e with_remove_operational] in *.
      cbn [oe_pv pv_gcr with_remove_operational] in *.
      rewrite He. reflexivity. }
    split; [exact Hon |].
    change (pv_eroi off) with (pv_e off / pv_e_in off)%fl.
    change (pv_eroi on) with (pv_e on / pv_e_in off)%fl.
    rewrite Hon, He, Hin. split; [apply fl_div_fin, Hn | apply Hdiv, Hn].
Qed.

(** The onshore wind EROI of the cell built from the sample cell, with
    and without the operational energy. *)
Lemma operational_energy_scales_eroi_witness :
  exists (x : grid_cell) (r : R),
    @build_cell sample_params sample_methods sample_math sample_cell = Some x
    /\ wind_onshore_eroi
         (@eroi_of_cell (with_remove_operational false sample_params)
            sample_methods x) = Fin r
    /\ wind_onshore_eroi
         (@eroi_of_cell (with_remove_operational true sample_params)
            sample_methods x) = Fin (r * (1 - 0.035)).
Proof.
  destruct sample_cell_areas as (x & A & Hx & HA & Hsrc & Hon & Hoff).
  destruct (operational_energy_scales_eroi sample_params sample_methods x)
    as (_ & Honshore & _).
  destruct (Honshore (11 * 1e-6 * (A * 0.5) * 0.97 * 1e-18)
              (1e-6 * (A * 0.5) * (13744075 + 40 * (21.3 + 605.74)) * 1e-18 / 25))
    as (_ & H0 & H1).
  - unfold eroi_of_cell. cbn [wind_onshore_e]. rewrite Hsrc, Hon. reflexivity.
  - unfold eroi_of_cell. cbn [wind_onshore_e_in]. rewrite Hsrc, Hon.
    cbn [sample_cell v_r_opti n_opti DistCoast E_in_wind sample_methods].
    rewrite onshore_inputs_fin, Rabs_pos_eq by lra.
    cbn [fl_mul fl_add fixedOnshore onshoreOMKm onshoreInstallationKm
         wind_life_time with_remove_operational sample_params].
    rewrite fl_div_fin by lra. reflexivity.
  - lra.
  - eexists x, _. split; [exact Hx |]. split; [exact H0 | exact H1].
Defined.

(** ** The rooftop table after the overrides *)

(** The table the overrides return: the four values are read from the
    joined table, none of them being overwritten before it is read. *)
Lemma ghi_overrides_inv (df t : gmap string Rooftop.ghi_row) :
  Rooftop.ghi_overrides df = Some t ->
  exists m q c k : fl,
    Rooftop.loc_get df "Malaysia" = Some m
    /\ Rooftop.loc_get df "Qatar" = Some q
    /\ Rooftop.loc_get df "China" = Some c
    /\ Rooftop.loc_get df "Montenegro" = Some k
    /\ is_Some (df !! "Netherlands Antilles"%string)
    /\ is_Some (df !! "Gibraltar"%string)
    /\ t = Rooftop.loc_set
             (Rooftop.loc_set
                (Rooftop.loc_set
                   (Rooftop.loc_set
                      (Rooftop.loc_set
                         (Rooftop.loc_set
                            (Rooftop.loc_set df "Singapore" m) "Bahrain" q)
                         "Chinese Taipei" c)
                      "Hong Kong, China" c)
                   "Kosovo" k)
                "Netherlands Antilles" 0)
             "Gibraltar" 0.
Proof.
  unfold Rooftop.ghi_overrides. intros Ht.
  apply bind_Some in Ht as (m & Em & Ht).
  apply bind_Some in Ht as (q & Eq & Ht).
  apply bind_Some in Ht as (c1 & Ec1 & Ht).
  apply bind_Some in Ht as (c2 & Ec2 & Ht).
  apply bind_Some in Ht as (k1 & Ek & Ht).
  unfold Rooftop.loc_set_list in Ht.
  destruct (forallb _ _) eqn:Eall; [| discriminate].
  cbn [fold_left] in Ht. injection Ht as <-.
  revert Eq Ec1 Ec2 Ek. through_overrides. intros Eq Ec1 Ec2 Ek.
  assert (c2 = c1) as -> by congruence.
  cbn [forallb] in Eall. rewrite !andb_true_iff in Eall.
  destruct Eall as (Hna%bool_decide_eq_true & Hgi%bool_decide_eq_true & _).
  exists m, q, c1, k1. repeat split; try assumption.
  - revert Hna. unfold Rooftop.loc_set. rewrite !lookup_insert_ne by discriminate.
    tauto.
  - revert Hgi. unfold Rooftop.loc_set. rewrite !lookup_insert_ne by discriminate.
    tauto.
Qed.

Lemma loc_set_lookup_ne (df : gmap string Rooftop.ghi_row) (l l' : string) (v : fl) :
  l <> l' -> Rooftop.loc_set df l v !! l' = df !! l'.
Proof. intros Hne. unfold Rooftop.loc_set. apply lookup_insert_ne, Hne. Qed.

Lemma loc_set_lookup_eq (df : gmap string Rooftop.ghi_row) (l : string) (v : fl) :
  Rooftop.loc_set df l v !! l
  = Some (Rooftop.Build_ghi_row
            match df !! l with
            | Some r => Rooftop.areas r
            | None => Rooftop.Build_area_row NaN NaN
            end v).
Proof. unfold Rooftop.loc_set. apply lookup_insert_eq. Qed.

(** An assignment to the GHI of a row leaves the areas of every row
    alone. *)
Lemma loc_set_areas (df : gmap string Rooftop.ghi_row) (l l' : string) (v : fl)
    (a : Rooftop.area_row) :
  Rooftop.areas <$> df !! l' = Some a ->
  Rooftop.areas <$> Rooftop.loc_set df l v !! l' = Some a.
Proof.
  intros Ha. destruct (decide (l = l')) as [-> | Hne].
  - rewrite loc_set_lookup_eq. destruct (df !! l'); cbn in *; congruence.
  - rewrite loc_set_lookup_ne by exact Hne. exact Ha.
Qed.

Lemma loc_set_dom (df : gmap string Rooftop.ghi_row) (l : string) (v : fl) :
  dom (Rooftop.loc_set df l v) = {[l]} ∪ dom df.
Proof. unfold Rooftop.loc_set. apply dom_insert_L. Qed.

Lemma join_ghi_dom (df : gmap string Rooftop.area_row) (mean_ghi : gmap string fl) :
  dom (Rooftop.join_ghi df mean_ghi) = dom df.
Proof.
  apply set_eq. intros l. rewrite !elem_of_dom, join_ghi_lookup.
  destruct (df !! l); cbn; split; intros [? ?]; eauto; discriminate.
Qed.

Section RooftopResult.
Context `{model_params} `{model_methods} `{py_math}.

(** The result of [world_rooftop_pv] is the table of the overrides with
    the energy columns added to each row. *)
Lemma world_rooftop_pv_inv
    (rooftop_area : gmap string Rooftop.area_row) (wind_solar : list raw_cell)
    (out : gmap string Rooftop.row) :
  Rooftop.world_rooftop_pv rooftop_area wind_solar = Some out ->
  exists (g : list grid_cell) (t : gmap string Rooftop.ghi_row),
    world_grid wind_solar = Some g
    /\ Rooftop.ghi_overrides (Rooftop.join_ghi rooftop_area (mean_ghi_of g))
       = Some t
    /\ out = Rooftop.pv_of_row <$> t
    /\ (forall l, ghi_of out l = Rooftop.loc_get t l)
    /\ (forall l, areas_of out l = Rooftop.areas <$> t !! l).
Proof.
  unfold Rooftop.world_rooftop_pv. intros Hout.
  apply bind_Some in Hout as (g & Hg & Hout).
  apply bind_Some in Hout as (t & Ht & [= <-]).
  exists g, t. repeat split; try assumption.
  - intros l. unfold ghi_of, Rooftop.loc_get. rewrite lookup_fmap.
    destruct (t !! l); reflexivity.
  - intros l. unfold areas_of. rewrite lookup_fmap.
    destruct (t !! l); reflexivity.
Qed.

(** X14: in the table returned by [world_rooftop_pv] Bahrain carries
    the GHI that the join gave to Qatar, Chinese Taipei and Hong Kong the
    GHI of China and Kosovo the GHI of Montenegro, each the mean GHI of
    the cells of the source country or missing when the grid has none;
    the four source rows keep their own GHI. *)
Theorem rooftop_neighbour_overrides
    (rooftop_area : gmap string Rooftop.area_row) (wind_solar : list raw_cell)
    (g : list grid_cell) (out : gmap string Rooftop.row) :
  world_grid wind_solar = Some g ->
  Rooftop.world_rooftop_pv rooftop_area wind_solar = Some out ->
  let mean l := Some (default NaN (mean_ghi_of g !! l)) in
  ghi_of out "Bahrain" = mean "Qatar"%string
  /\ ghi_of out "Chinese Taipei" = mean "China"%string
  /\ ghi_of out "Hong Kong, China" = mean "China"%string
  /\ ghi_of out "Kosovo" = mean "Montenegro"%string
  /\ Forall (fun l => ghi_of out l = mean l) override_sources.
Proof.
  intros Hg Hout mean.
  destruct (world_rooftop_pv_inv _ _ _ Hout) as (g' & t & Hg' & Ht & _ & Hghi & _).
  assert (g' = g) as -> by congruence.
  destruct (ghi_overrides_inv _ t Ht) as (m & q & c0 & k0 & Em & Eq & Ec & Ek & _ & _ & ->).
  assert (Hj : forall l v,
             Rooftop.loc_get (Rooftop.join_ghi rooftop_area (mean_ghi_of g)) l
             = Some v -> Some v = mean l).
  { intros l v. unfold Rooftop.loc_get. rewrite join_ghi_lookup.
    destruct (rooftop_area !! l); cbn [fmap option_fmap option_map Rooftop.GHI];
      [intros [= <-]; reflexivity | discriminate]. }
  pose proof (Hj _ _ Em) as Em'. pose proof (Hj _ _ Eq) as Eq'.
  pose proof (Hj _ _ Ec) as Ec'. pose proof (Hj _ _ Ek) as Ek'.
  unfold override_sources. rewrite !Forall_cons. rewrite !Hghi.
  repeat split; try apply Forall_nil_2; through_overrides; congruence.
Qed.

End RooftopResult.

Lemma fl_div_nan_r (a : fl) : (a / NaN)%fl = NaN.
Proof. destruct a; reflexivity. Qed.

Section RooftopRows.
Context `{model_params} `{model_methods} `{py_math}.

(** X15: the overrides write the GHI column only, and only in the seven
    rows they name: in the returned table every row of the rooftop table
    has its two areas unchanged, and every row outside the seven has the
    GHI of the join, the mean GHI of the cells of its country, missing
    when the grid has no cell of that country. *)
Theorem rooftop_rows_untouched
    (rooftop_area : gmap string Rooftop.area_row) (wind_solar : list raw_cell)
    (g : list grid_cell) (out : gmap string Rooftop.row) :
  world_grid wind_solar = Some g ->
  Rooftop.world_rooftop_pv rooftop_area wind_solar = Some out ->
  (forall l a, rooftop_area !! l = Some a -> areas_of out l = Some a)
  /\ (forall l,
        ~ In l (override_targets ++ ["Netherlands Antilles"; "Gibraltar"]%string) ->
        ghi_of out l
        = (fun _ => default NaN (mean_ghi_of g !! l)) <$> rooftop_area !! l).
Proof.
  intros Hg Hout.
  destruct (world_rooftop_pv_inv _ _ _ Hout) as (g' & t & Hg' & Ht & _ & Hghi & Har).
  assert (g' = g) as -> by congruence.
  destruct (ghi_overrides_inv _ t Ht) as (m & q & c0 & k0 & _ & _ & _ & _ & _ & _ & ->).
  split.
  - intros l a Hl. rewrite Har. repeat apply loc_set_areas.
    rewrite join_ghi_lookup, Hl. reflexivity.
  - intros l Hnot. rewrite Hghi. cbn in Hnot.
    rewrite !loc_get_set.
    repeat (case_decide; [exfalso; apply Hnot; tauto |]).
    unfold Rooftop.loc_get. rewrite join_ghi_lookup.
    destruct (rooftop_area !! l); reflexivity.
Qed.

(** X16: when the rooftop table has no row for one of the four
    countries whose GHI the overrides read (Malaysia, Qatar, China,
    Montenegro) the read is a [KeyError] and [world_rooftop_pv] returns
    no table, whatever the grid. *)
Theorem rooftop_missing_source_raises
    (rooftop_area : gmap string Rooftop.area_row) (wind_solar : list raw_cell)
    (l : string) :
  In l override_sources ->
  rooftop_area !! l = None ->
  Rooftop.world_rooftop_pv rooftop_area wind_solar = None.
Proof.
  intros Hl Hnone.
  destruct (Rooftop.world_rooftop_pv rooftop_area wind_solar) as [out |] eqn:Hout;
    [exfalso | reflexivity].
  destruct (world_rooftop_pv_inv _ _ _ Hout) as (g & t & _ & Ht & _).
  destruct (ghi_overrides_inv _ t Ht) as (m & q & c0 & k0 & Em & Eq & Ec & Ek & _).
  revert Em Eq Ec Ek. unfold Rooftop.loc_get. rewrite !join_ghi_lookup.
  cbn in Hl. destruct Hl as [<- | [<- | [<- | [<- | []]]]];
    rewrite Hnone; cbn; congruence.
Qed.

(** X17: when the rooftop table has no row for one of the five
    countries assigned one at a time (Singapore, Bahrain, Chinese Taipei,
    Hong Kong, Kosovo) the assignment adds the row: the returned table
    has it, with both areas missing, so that its energy inputs and its
    EROI are NaN. *)
Theorem rooftop_enlarged_rows
    (rooftop_area : gmap string Rooftop.area_row) (wind_solar : list raw_cell)
    (out : gmap string Rooftop.row) (l : string) :
  Rooftop.world_rooftop_pv rooftop_area wind_solar = Some out ->
  In l override_targets ->
  rooftop_area !! l = None ->
  exists o : Rooftop.row,
    out !! l = Some o
    /\ Rooftop.areas (Rooftop.joined o) = Rooftop.Build_area_row NaN NaN
    /\ Rooftop.residential_e_in o = NaN
    /\ Rooftop.commercial_e_in o = NaN
    /\ Rooftop.pv_e_in o = NaN
    /\ Rooftop.pv_eroi o = NaN.
Proof.
  intros Hout Hl Hnone.
  destruct (world_rooftop_pv_inv _ _ _ Hout) as (g & t & _ & Ht & -> & _).
  destruct (ghi_overrides_inv _ t Ht) as (m & q & c0 & k0 & _ & _ & _ & _ & _ & _ & ->).
  assert (Hj : Rooftop.join_ghi rooftop_area (mean_ghi_of g) !! l = None)
    by (rewrite join_ghi_lookup, Hnone; reflexivity).
  rewrite lookup_fmap.
  assert (Hrow : exists v,
            Rooftop.loc_set
              (Rooftop.loc_set
                 (Rooftop.loc_set
                    (Rooftop.loc_set
                       (Rooftop.loc_set
                          (Rooftop.loc_set
                             (Rooftop.loc_set
                                (Rooftop.join_ghi rooftop_area (mean_ghi_of g))
                                "Singapore" m) "Bahrain" q)
                          "Chinese Taipei" c0) "Hong Kong, China" c0)
                    "Kosovo" k0) "Netherlands Antilles" 0) "Gibraltar" 0 !! l
            = Some (Rooftop.Build_ghi_row (Rooftop.Build_area_row NaN NaN) v)).
  { cbn in Hl. destruct Hl as [<- | [<- | [<- | [<- | [<- | []]]]]];
      rewrite ?loc_set_lookup_ne by discriminate;
      rewrite loc_set_lookup_eq;
      rewrite ?loc_set_lookup_ne by discriminate;
      rewrite Hj; eauto. }
  destruct Hrow as [v ->]. eexists. split; [reflexivity |].
  cbn. rewrite fl_div_nan_r. repeat split.
Qed.

(** X18: the returned table has a row for every country of the rooftop
    table and for the five countries assigned one at a time, and no
    other row. *)
Theorem rooftop_result_countries
    (rooftop_area : gmap string Rooftop.area_row) (wind_solar : list raw_cell)
    (out : gmap string Rooftop.row) :
  Rooftop.world_rooftop_pv rooftop_area wind_solar = Some out ->
  dom out = dom rooftop_area ∪ list_to_set override_targets.
Proof.
  intros Hout.
  destruct (world_rooftop_pv_inv _ _ _ Hout) as (g & t & _ & Ht & -> & _).
  destruct (ghi_overrides_inv _ t Ht)
    as (m & q & c0 & k0 & _ & _ & _ & _ & Hna & Hgi & ->).
  apply elem_of_dom in Hna, Hgi. rewrite join_ghi_dom in Hna, Hgi.
  rewrite dom_fmap_L, !loc_set_dom, join_ghi_dom.
  unfold override_targets. cbn [list_to_set].
  apply set_eq. intros x.
  rewrite !elem_of_union, !elem_of_singleton, elem_of_empty.
  split.
  - intros [-> | [-> | [-> | [-> | [-> | [-> | [-> | Hx]]]]]]]; tauto.
  - intros [Hx | [-> | [-> | [-> | [-> | [-> | []]]]]]]; tauto.
Qed.

End RooftopRows.

(** ** The mean GHI per country *)

(** The group of a country after folding a list of cells into given
    groups. *)
Lemma groupby_fold_lookup (df : list grid_cell) (acc : gmap string (list fl))
    (s : string) :
  fold_left
    (fun groups g =>
       match Country (src g) with
       | Some s => <[s := default [] (groups !! s) ++ [GHI (src g)]]> groups
       | None => groups
       end)
    df acc !! s
  = match acc !! s, ghi_of_country s df with
    | None, [] => None
    | o, new => Some (default [] o ++ new)
    end.
Proof.
  revert acc. induction df as [| a df IH]; intros acc.
  - cbn. destruct (acc !! s); cbn; [rewrite app_nil_r |]; reflexivity.
  - cbn [fold_left]. rewrite IH. unfold ghi_of_country. cbn [List.filter].
    destruct (Country (src a)) as [c0 |] eqn:Ec.
    + destruct (decide (c0 = s)) as [-> | Hne].
      * rewrite lookup_insert_eq, bool_decide_eq_true_2 by reflexivity.
        cbn [List.map default Datatypes.id]. rewrite <- app_assoc. cbn [app].
        destruct (acc !! s); reflexivity.
      * rewrite lookup_insert_ne by exact Hne.
        rewrite bool_decide_eq_false_2 by congruence. reflexivity.
    + rewrite bool_decide_eq_false_2 by congruence. reflexivity.
Qed.

Lemma mean_ghi_of_lookup (g : list grid_cell) (s : string) :
  mean_ghi_of g !! s
  = match ghi_of_country s g with
    | [] => None
    | xs => Some (series_mean xs)
    end.
Proof.
  unfold mean_ghi_of, groupby_Country_GHI.
  rewrite lookup_fmap, groupby_fold_lookup, lookup_empty.
  destruct (ghi_of_country s g); reflexivity.
Qed.

Lemma fold_add_fin (xs : list fl) (lo hi a : R) :
  Forall (fun v => exists r : R, v = Fin r /\ lo <= r <= hi) xs ->
  List.filter (fun x => negb (isnull x)) xs = xs
  /\ exists t : R,
       fold_left fl_add xs (Fin a) = Fin (a + t)
       /\ INR (length xs) * lo <= t <= INR (length xs) * hi.
Proof.
  intros Hxs. revert a. induction Hxs as [| v xs (r & -> & Hr) _ IH]; intros a.
  - split; [reflexivity |]. exists 0. cbn. split; [f_equal; lra | lra].
  - destruct (IH (a + r)) as [Hf (t & Ht & Hb)].
    split; [cbn; rewrite Hf; reflexivity |].
    exists (r + t). cbn [fold_left fl_add]. rewrite Ht.
    split; [f_equal; lra |]. rewrite length_cons, S_INR. lra.
Qed.

Lemma series_mean_within (xs : list fl) (lo hi : R) :
  xs <> [] ->
  Forall (fun v => exists r : R, v = Fin r /\ lo <= r <= hi) xs ->
  exists m : R, series_mean xs = Fin m /\ lo <= m <= hi.
Proof.
  intros Hne Hxs. destruct (fold_add_fin xs lo hi 0 Hxs) as [Hf (t & Ht & Hb)].
  unfold series_mean. rewrite Hf, Ht.
  assert (Hn : 0 < INR (length xs)).
  { apply lt_0_INR. destruct xs; [congruence | cbn; lia]. }
  rewrite fl_div_fin by lra. eexists. split; [reflexivity |].
  rewrite Rplus_0_l. split.
  - apply Rmult_le_reg_r with (INR (length xs)); [exact Hn |].
    unfold Rdiv. rewrite Rmult_assoc, Rinv_l by lra. lra.
  - apply Rmult_le_reg_r with (INR (length xs)); [exact Hn |].
    unfold Rdiv. rewrite Rmult_assoc, Rinv_l by lra. lra.
Qed.

(** X19: the mean GHI of a country is taken over the cells of that
    country alone: when the grid has a cell of the country and the GHI
    of each of its cells is a number between two bounds, the mean is a
    number between the same bounds, whatever the cells of the other
    countries hold. *)
Theorem country_mean_within (g : list grid_cell) (s : string) (lo hi : R) :
  (exists x, In x g /\ Country (src x) = Some s) ->
  (forall x, In x g -> Country (src x) = Some s ->
             exists r : R, GHI (src x) = Fin r /\ lo <= r <= hi) ->
  exists m : R, mean_ghi_of g !! s = Some (Fin m) /\ lo <= m <= hi.
Proof.
  intros (x & Hx & Hc) Hall.
  assert (Hne : ghi_of_country s g <> []).
  { unfold ghi_of_country. intros Heq%map_eq_nil.
    assert (Hin : In x (List.filter
                          (fun x => bool_decide (Country (src x) = Some s)) g))
      by (apply filter_In; split; [exact Hx | apply bool_decide_eq_true, Hc]).
    rewrite Heq in Hin. destruct Hin. }
  assert (Hxs : Forall (fun v => exists r : R, v = Fin r /\ lo <= r <= hi)
                  (ghi_of_country s g)).
  { unfold ghi_of_country. apply Forall_forall. intros v Hv.
    apply list_elem_of_In, in_map_iff in Hv as (y & <- & Hy).
    apply filter_In in Hy as [Hy Hcy]. apply bool_decide_eq_true in Hcy.
    apply Hall; assumption. }
  destruct (series_mean_within _ lo hi Hne Hxs) as (m & Hm & Hb).
  exists m. split; [| exact Hb].
  rewrite mean_ghi_of_lookup. destruct (ghi_of_country s g); congruence.
Qed.

Section DroppedCountries.
Context `{model_params} `{model_methods} `{py_math}.

Lemma grid_country_not_dropped
    (df : list raw_cell) (g : list grid_cell) (x : grid_cell) (s : string) :
  world_grid df = Some g -> In x g -> Country (src x) = Some s ->
  ~ dropped_country s.
Proof.
  intros Hg Hx Hc.
  destruct (world_grid_cell df g x Hg Hx) as (r & Hr & Hb).
  rewrite (build_cell_src r x Hb) in Hc.
  apply discard_cells_filter in Hr as (_ & Hk & Hi & Hd & _).
  apply country_kept_spec in Hk as (s' & Hs' & Ha & Hgr & Hf).
  rewrite Hc in Hs', Hi, Hd. injection Hs' as <-.
  apply str_in_not_occurs in Hi, Hd.
  unfold dropped_country. tauto.
Qed.

(** X20: a country whose name the selections of [world_grid] drop (the
    three polar names, and every name containing [Island] or [Is.]) has
    no cell in the grid and therefore no mean GHI: its row of the
    rooftop table, unless the overrides assign it, comes out with a
    missing GHI. *)
Theorem dropped_country_has_no_ghi
    (rooftop_area : gmap string Rooftop.area_row) (wind_solar : list raw_cell)
    (g : list grid_cell) (out : gmap string Rooftop.row)
    (s : string) (a : Rooftop.area_row) :
  world_grid wind_solar = Some g ->
  Rooftop.world_rooftop_pv rooftop_area wind_solar = Some out ->
  dropped_country s ->
  rooftop_area !! s = Some a ->
  ~ In s (override_targets ++ ["Netherlands Antilles"; "Gibraltar"]%string) ->
  mean_ghi_of g !! s = None /\ ghi_of out s = Some NaN.
Proof.
  intros Hg Hout Hs Ha Hnot.
  assert (Hmean : mean_ghi_of g !! s = None).
  { rewrite mean_ghi_of_lookup. unfold ghi_of_country.
    destruct (List.filter _ g) as [| x l] eqn:Ef; [reflexivity |].
    exfalso. assert (Hin : In x (x :: l)) by (left; reflexivity).
    rewrite <- Ef in Hin. apply filter_In in Hin as [Hx Hc].
    apply bool_decide_eq_true in Hc.
    exact (grid_country_not_dropped wind_solar g x s Hg Hx Hc Hs). }
  split; [exact Hmean |].
  destruct (world_rooftop_pv_inv _ _ _ Hout) as (g' & t & Hg' & Ht & _ & Hghi & _).
  assert (g' = g) as -> by congruence.
  destruct (ghi_overrides_inv _ t Ht) as (m & q & c0 & k0 & _ & _ & _ & _ & _ & _ & ->).
  rewrite Hghi. cbn in Hnot. rewrite !loc_get_set.
  repeat (case_decide; [exfalso; apply Hnot; tauto |]).
  unfold Rooftop.loc_get. rewrite join_ghi_lookup, Ha, Hmean. reflexivity.
Qed.

End DroppedCountries.

(** ** The sample tables *)

Lemma sample_table_cells :
  exists y1 x y2 : grid_cell,
    @world_grid sample_params sample_methods sample_math sample_wind_solar
    = Some [y1; x; y2]
    /\ src y1 = malaysia_cell 180 /\ src x = sample_cell
    /\ src y2 = malaysia_cell 220.
Proof.
  destruct (sample_grid_returns sample_wind_solar) as [g Hg]; [incl_sample_cells |].
  assert (Hd : @discard_cells sample_params sample_wind_solar = sample_wind_solar).
  { unfold discard_cells, sample_wind_solar. cbn. real_cases. reflexivity. }
  pose proof (@world_grid_src sample_params sample_methods sample_math _ _ Hg)
    as Hsrc.
  rewrite Hd in Hsrc. unfold sample_wind_solar in Hsrc.
  destruct g as [| y1 [| x [| y2 [| ? ?]]]]; try discriminate.
  injection Hsrc as H1 H2 H3.
  exists y1, x, y2. repeat split; assumption.
Qed.

(** [world_rooftop_pv] returns a table for every rooftop table that
    extends the sample one by rows of other countries. *)
Lemma sample_rooftop_result (rooftop_area : gmap string Rooftop.area_row) :
  (forall l : string,
     In l ["Malaysia"; "Qatar"; "China"; "Montenegro";
           "Netherlands Antilles"; "Gibraltar"]%string ->
     is_Some (rooftop_area !! l)) ->
  exists (g : list grid_cell) (out : gmap string Rooftop.row),
    @world_grid sample_params sample_methods sample_math sample_wind_solar
    = Some g
    /\ @Rooftop.world_rooftop_pv sample_params sample_methods sample_math
         rooftop_area sample_wind_solar = Some out.
Proof.
  intros Hl.
  destruct sample_table_cells as (y1 & x & y2 & Hg & _).
  destruct (ghi_overrides_total
              (Rooftop.join_ghi rooftop_area (mean_ghi_of [y1; x; y2])))
    as [t Ht].
  { intros l Hin. rewrite join_ghi_lookup.
    destruct (Hl l Hin) as [a ->]. cbn. eauto. }
  eexists _, _. split; [exact Hg |].
  unfold Rooftop.world_rooftop_pv. rewrite Hg. cbn [mbind option_bind].
  rewrite Ht. reflexivity.
Qed.

Lemma sample_rooftop_rows (l : string) :
  In l ["Malaysia"; "Qatar"; "China"; "Montenegro";
        "Netherlands Antilles"; "Gibraltar"]%string ->
  is_Some (sample_rooftop !! l) /\ is_Some (rooftop_with_greenland !! l).
Proof.
  intros Hin. cbn in Hin.
  destruct Hin as [<- | [<- | [<- | [<- | [<- | [<- | []]]]]]];
    split; eexists; vm_compute; reflexivity.
Qed.

(** In the result for the sample tables Kosovo carries the mean GHI of
    Montenegro, which is missing: the sample grid has no such cell. *)
Lemma rooftop_neighbour_overrides_witness :
  exists (g : list grid_cell) (out : gmap string Rooftop.row),
    @Rooftop.world_rooftop_pv sample_params sample_methods sample_math
      sample_rooftop sample_wind_solar = Some out
    /\ ghi_of out "Kosovo" = Some (default NaN (mean_ghi_of g !! "Montenegro"))
    /\ ghi_of out "Bahrain" = Some (default NaN (mean_ghi_of g !! "Qatar")).
Proof.
  destruct (sample_rooftop_result sample_rooftop) as (g & out & Hg & Hout).
  { intros l Hl. apply sample_rooftop_rows, Hl. }
  destruct (@rooftop_neighbour_overrides sample_params sample_methods sample_math
              sample_rooftop sample_wind_solar g out Hg Hout)
    as (Hb & _ & _ & Hk & _).
  exists g, out. split; [exact Hout |]. split; [exact Hk | exact Hb].
Defined.

(** The row of France keeps its areas of 300 and 200. *)
Lemma rooftop_rows_untouched_witness :
  exists out : gmap string Rooftop.row,
    @Rooftop.world_rooftop_pv sample_params sample_methods sample_math
      sample_rooftop sample_wind_solar = Some out
    /\ areas_of out "France" = Some (Rooftop.Build_area_row 300 200).
Proof.
  destruct (sample_rooftop_result sample_rooftop) as (g & out & Hg & Hout).
  { intros l Hl. apply sample_rooftop_rows, Hl. }
  destruct (@rooftop_rows_untouched sample_params sample_methods sample_math
              sample_rooftop sample_wind_solar g out Hg Hout) as [Har _].
  exists out. split; [exact Hout |]. apply Har. vm_compute. reflexivity.
Defined.

(** Without a row for Malaysia no table is returned. *)
Lemma rooftop_missing_source_raises_witness :
  @Rooftop.world_rooftop_pv sample_params sample_methods sample_math
    rooftop_without_malaysia sample_wind_solar = None.
Proof.
  apply (@rooftop_missing_source_raises sample_params sample_methods sample_math
           rooftop_without_malaysia sample_wind_solar "Malaysia").
  - left. reflexivity.
  - apply lookup_delete_eq.
Defined.

(** The sample rooftop table has no row for Bahrain. *)
Lemma rooftop_enlarged_rows_witness :
  exists (out : gmap string Rooftop.row) (o : Rooftop.row),
    @Rooftop.world_rooftop_pv sample_params sample_methods sample_math
      sample_rooftop sample_wind_solar = Some out
    /\ out !! "Bahrain"%string = Some o
    /\ Rooftop.pv_eroi o = NaN.
Proof.
  destruct (sample_rooftop_result sample_rooftop) as (g & out & Hg & Hout).
  { intros l Hl. apply sample_rooftop_rows, Hl. }
  destruct (@rooftop_enlarged_rows sample_params sample_methods sample_math
              sample_rooftop sample_wind_solar out "Bahrain" Hout)
    as (o & Ho & _ & _ & _ & _ & He).
  - right. left. reflexivity.
  - vm_compute. reflexivity.
  - exists out, o. split; [exact Hout |]. split; [exact Ho | exact He].
Defined.

(** The countries of the result for the sample tables. *)
Lemma rooftop_result_countries_witness :
  exists out : gmap string Rooftop.row,
    @Rooftop.world_rooftop_pv sample_params sample_methods sample_math
      sample_rooftop sample_wind_solar = Some out
    /\ dom out = dom sample_rooftop ∪ list_to_set override_targets.
Proof.
  destruct (sample_rooftop_result sample_rooftop) as (g & out & Hg & Hout).
  { intros l Hl. apply sample_rooftop_rows, Hl. }
  exists out. split; [exact Hout |].
  apply (@rooftop_result_countries sample_params sample_methods sample_math
           sample_rooftop sample_wind_solar out Hout).
Defined.

(** The mean GHI of Malaysia in the sample grid lies between the GHI of
    its two cells. *)
Lemma country_mean_within_witness :
  exists (g : list grid_cell) (m : R),
    @world_grid sample_params sample_methods sample_math sample_wind_solar
    = Some g
    /\ mean_ghi_of g !! "Malaysia"%string = Some (Fin m)
    /\ 180 <= m <= 220.
Proof.
  destruct sample_table_cells as (y1 & x & y2 & Hg & H1 & H2 & H3).
  destruct (country_mean_within [y1; x; y2] "Malaysia" 180 220) as (m & Hm & Hb).
  - exists y1. split; [left; reflexivity | rewrite H1; reflexivity].
  - intros c [<- | [<- | [<- | []]]] Hc.
    + rewrite H1. exists 180. split; [reflexivity | lra].
    + rewrite H2 in Hc. discriminate.
    + rewrite H3. exists 220. split; [reflexivity | lra].
  - exists [y1; x; y2], m. split; [exact Hg |]. split; [exact Hm | exact Hb].
Defined.

(** A rooftop row for Greenland comes out without a GHI. *)
Lemma dropped_country_has_no_ghi_witness :
  exists out : gmap string Rooftop.row,
    @Rooftop.world_rooftop_pv sample_params sample_methods sample_math
      rooftop_with_greenland sample_wind_solar = Some out
    /\ ghi_of out "Greenland" = Some NaN.
Proof.
  destruct (sample_rooftop_result rooftop_with_greenland) as (g & out & Hg & Hout).
  { intros l Hl. apply sample_rooftop_rows, Hl. }
  exists out. split; [exact Hout |].
  apply (@dropped_country_has_no_ghi sample_params sample_methods sample_math
           rooftop_with_greenland sample_wind_solar g out "Greenland"
           (Rooftop.Build_area_row 0.4 0.1) Hg Hout).
  - right. left. reflexivity.
  - apply lookup_insert_eq.
  - cbn. intros [H | [H | [H | [H | [H | [H | [H | []]]]]]]]; discriminate.
Defined.

(** ** Edge cases of the rooftop pipeline *)

Section RooftopEdges.
Context `{model_params} `{model_methods} `{py_math}.

(** X21: a country with both rooftop areas zero has a zero PV input,
    whatever its GHI, and its rooftop EROI, a division by zero, is an
    infinity or NaN and no number. *)
Theorem zero_rooftop_area_no_eroi (r : Rooftop.ghi_row) (res com : R) :
  Rooftop.Area_PV_Residential (Rooftop.areas r) = Fin res ->
  Rooftop.Area_PV_Commercial (Rooftop.areas r) = Fin com ->
  res = 0 -> com = 0 ->
  Rooftop.pv_e_in (Rooftop.pv_of_row r) = Fin 0
  /\ ~ finite (Rooftop.pv_eroi (Rooftop.pv_of_row r)).
Proof.
  intros Hres Hcom -> ->.
  assert (Hin : Rooftop.pv_e_in (Rooftop.pv_of_row r) = Fin 0).
  { unfold Rooftop.pv_of_row. cbn [Rooftop.pv_e_in]. rewrite Hres, Hcom.
    cbn [fl_mul]. rewrite !fl_div_fin by lra. cbn [fl_mul fl_add].
    f_equal. unfold Rdiv. ring. }
  split; [exact Hin |].
  change (Rooftop.pv_eroi (Rooftop.pv_of_row r))
    with (Rooftop.pv_e (Rooftop.pv_of_row r)
          / Rooftop.pv_e_in (Rooftop.pv_of_row r))%fl.
  rewrite Hin. apply fl_div_by_zero.
Qed.

(** X22: when the selections keep none of the rows of the input table,
    the grid is empty and no country has a mean GHI: [world_rooftop_pv]
    still returns a table, in which the GHI of every row of the rooftop
    table is missing, except the two rows forced to 0. *)
Theorem rooftop_of_empty_grid
    (rooftop_area : gmap string Rooftop.area_row) (wind_solar : list raw_cell) :
  wind_solar <> [] ->
  discard_cells wind_solar = [] ->
  (forall l : string,
     In l ["Malaysia"; "Qatar"; "China"; "Montenegro";
           "Netherlands Antilles"; "Gibraltar"]%string ->
     is_Some (rooftop_area !! l)) ->
  world_grid wind_solar = Some []
  /\ exists out : gmap string Rooftop.row,
       Rooftop.world_rooftop_pv rooftop_area wind_solar = Some out
       /\ (forall l a, rooftop_area !! l = Some a ->
             l <> "Netherlands Antilles"%string -> l <> "Gibraltar"%string ->
             ghi_of out l = Some NaN)
       /\ ghi_of out "Netherlands Antilles" = Some (Fin 0)
       /\ ghi_of out "Gibraltar" = Some (Fin 0).
Proof.
  intros _ Hd Hl.
  assert (Hg : world_grid wind_solar = Some [])
    by (unfold world_grid; rewrite Hd; reflexivity).
  split; [exact Hg |].
  assert (Hj : forall l,
             Rooftop.loc_get (Rooftop.join_ghi rooftop_area (mean_ghi_of [])) l
             = (fun _ => NaN) <$> rooftop_area !! l).
  { intros l. unfold Rooftop.loc_get. rewrite join_ghi_lookup.
    destruct (rooftop_area !! l); reflexivity. }
  destruct (ghi_overrides_total
              (Rooftop.join_ghi rooftop_area (mean_ghi_of []))) as [t Ht].
  { intros l Hin. rewrite join_ghi_lookup.
    destruct (Hl l Hin) as [a ->]. cbn. eauto. }
  exists (Rooftop.pv_of_row <$> t).
  assert (Hout : Rooftop.world_rooftop_pv rooftop_area wind_solar
                 = Some (Rooftop.pv_of_row <$> t)).
  { unfold Rooftop.world_rooftop_pv. rewrite Hg. cbn [mbind option_bind].
    rewrite Ht. reflexivity. }
  split; [exact Hout |].
  destruct (world_rooftop_pv_inv _ _ _ Hout) as (g' & t' & Hg' & Ht' & _ & Hghi & _).
  assert (g' = []) as -> by congruence.
  assert (t' = t) as -> by congruence.
  destruct (ghi_overrides_inv _ t Ht)
    as (m & q & c0 & k0 & Em & Eq & Ec & Ek & _ & _ & ->).
  rewrite Hj in Em, Eq, Ec, Ek.
  assert (m = NaN) as -> by (destruct (rooftop_area !! "Malaysia"%string);
                              cbn in Em; congruence).
  assert (q = NaN) as -> by (destruct (rooftop_area !! "Qatar"%string);
                              cbn in Eq; congruence).
  assert (c0 = NaN) as -> by (destruct (rooftop_area !! "China"%string);
                               cbn in Ec; congruence).
  assert (k0 = NaN) as -> by (destruct (rooftop_area !! "Montenegro"%string);
                               cbn in Ek; congruence).
  split; [| split].
  - intros l a Ha Hna Hgi. rewrite Hghi, !loc_get_set.
    repeat case_decide; try congruence.
    rewrite Hj, Ha. reflexivity.
  - rewrite Hghi. through_overrides. reflexivity.
  - rewrite Hghi. through_overrides. reflexivity.
Qed.

End RooftopEdges.

(** The row of a country without rooftop area. *)
Lemma zero_rooftop_area_no_eroi_witness :
  ~ finite
      (Rooftop.pv_eroi
         (@Rooftop.pv_of_row sample_params sample_methods
            (Rooftop.Build_ghi_row (Rooftop.Build_area_row 0 0) 150))).
Proof.
  apply (@zero_rooftop_area_no_eroi sample_params sample_methods
           (Rooftop.Build_ghi_row (Rooftop.Build_area_row 0 0) 150) 0 0
           eq_refl eq_refl eq_refl eq_refl).
Defined.

(** The sample rooftop table with an input table of four rows, of
    Antarctica, Baker Island, Greenland and Solomon Is., none of which
    the selections keep. *)
Lemma rooftop_of_empty_grid_witness :
  exists out : gmap string Rooftop.row,
    @Rooftop.world_rooftop_pv sample_params sample_methods sample_math
      sample_rooftop dropped_wind_solar = Some out
    /\ ghi_of out "France" = Some NaN
    /\ ghi_of out "Gibraltar" = Some (Fin 0).
Proof.
  destruct (@rooftop_of_empty_grid sample_params sample_methods sample_math
              sample_rooftop dropped_wind_solar)
    as (_ & out & Hout & Hnan & _ & Hgi).
  { discriminate. }
  { reflexivity. }
  { intros l Hl. apply sample_rooftop_rows, Hl. }
  exists out. split; [exact Hout |]. split; [| exact Hgi].
  apply (Hnan "France"%string (Rooftop.Build_area_row 300 200)).
  - vm_compute. reflexivity.
  - discriminate.
  - discriminate.
Defined.
